(** * Text-to-Video: payload builders, proxy gateway and job orchestrator

    A shallow embedding of the two programs of the repository:

    - the React component [TextToVideoGenerator] (model registry [MODELS],
      the per-model [payloadBuilder]s and the asynchronous [handleGenerate]);
    - the Express handler of [functions/index.js] (the Replicate proxy).

    JavaScript values are modelled by the inductive [JsVal]; asynchronous
    network operations consume a script of fetch results, and every request
    and timer wait is recorded in a trace. *)

From Stdlib Require Import ZArith List Bool String Ascii Lia.
From Stdlib Require Import Numbers.DecimalString.
Import ListNotations.

Open Scope string_scope.
Open Scope Z_scope.

(** ** JavaScript values *)

Module Js.

(** A number is kept as a decimal: [mant * 10 ^ (- expo)].  The slider of
    the component produces multiples of 0.5, JSON carries decimals. *)
Record Num := mkNum { mant : Z; expo : nat }.

#[warnings="-register-all"] Inductive JsVal :=
| JUndefined
| JNull
| JBool (b : bool)
| JNum (n : Num)
| JStr (s : string)
| JArr (items : list JsVal)
| JObj (fields : list (string * JsVal)).

(** Truthiness, as used by [!x], [x || y] and [x && y]. *)
Definition truthy (v : JsVal) : bool :=
  match v with
  | JUndefined | JNull => false
  | JBool b => b
  | JNum n => negb (mant n =? 0)
  | JStr s => negb (s =? "")%string
  | JArr _ | JObj _ => true
  end.

(** [a || b] *)
Definition js_or (a b : JsVal) : JsVal := if truthy a then a else b.

(** [a !== 'text'] for a string constant on the right. *)
Definition strict_neq_str (a : JsVal) (text : string) : bool :=
  match a with
  | JStr s => negb (s =? text)%string
  | _ => true
  end.

Definition strict_eq_str (a : JsVal) (text : string) : bool :=
  negb (strict_neq_str a text).

(** Own-property lookup in an object literal or a parsed JSON object. *)
Fixpoint lookup (k : string) (fields : list (string * JsVal)) : JsVal :=
  match fields with
  | [] => JUndefined
  | (k', v) :: fields' => if (k =? k')%string then v else lookup k fields'
  end.

(** [v.k] for the property names the programs read ([detail], [status],
    [id], [output]): reading a property of [null] or [undefined] raises a
    TypeError ([None]); primitives and arrays have no such property. *)
Definition get_prop (v : JsVal) (k : string) : option JsVal :=
  match v with
  | JUndefined | JNull => None
  | JObj fields => Some (lookup k fields)
  | _ => Some JUndefined
  end.

(** Decimal rendering of a number, as [Number.prototype.toString] prints
    decimals of ordinary magnitude: no trailing zeros, no exponent. *)
Fixpoint normalise (m : Z) (e : nat) : Z * nat :=
  match e with
  | O => (m, O)
  | S e' => if m mod 10 =? 0 then normalise (m / 10) e' else (m, e)
  end.

Definition digits (z : Z) : string :=
  NilZero.string_of_uint (N.to_uint (Z.to_N z)).

Definition num_to_string (n : Num) : string :=
  let '(m, e) := normalise (mant n) (expo n) in
  let a := Z.abs m in
  let p := 10 ^ Z.of_nat e in
  let sign := if m <? 0 then "-" else "" in
  match e with
  | O => sign ++ digits a
  | _ => sign ++ digits (a / p) ++ "." ++ substring 1 e (digits (p + a mod p))
  end.

Fixpoint join (sep : string) (parts : list string) : string :=
  match parts with
  | [] => ""
  | [p] => p
  | p :: parts' => p ++ sep ++ join sep parts'
  end.

(** [String(v)], also what a template literal does with [${v}]. *)
Fixpoint ToString (v : JsVal) : string :=
  match v with
  | JUndefined => "undefined"
  | JNull => "null"
  | JBool true => "true"
  | JBool false => "false"
  | JNum n => num_to_string n
  | JStr s => s
  | JArr items =>
      join "," (map (fun x => match x with
                              | JUndefined | JNull => ""
                              | _ => ToString x
                              end) items)
  | JObj _ => "[object Object]"
  end.

(** Every property name that occurs in a value, at any depth. *)
Fixpoint all_keys (v : JsVal) : list string :=
  match v with
  | JArr items => flat_map all_keys items
  | JObj fields => flat_map (fun kv => fst kv :: all_keys (snd kv)) fields
  | _ => []
  end.

(** [Array.isArray(output) ? output[0] : output] *)
Definition first_or_self (output : JsVal) : JsVal :=
  match output with
  | JArr [] => JUndefined
  | JArr (x :: _) => x
  | v => v
  end.

(** White space removed by [String.prototype.trim], among the code units
    below 256: TAB, LF, VT, FF, CR, SPACE and NBSP. *)
Definition is_space (c : ascii) : bool :=
  match nat_of_ascii c with
  | 9%nat | 10%nat | 11%nat | 12%nat | 13%nat | 32%nat | 160%nat => true
  | _ => false
  end.

Fixpoint trim_start (s : string) : string :=
  match s with
  | String c s' => if is_space c then trim_start s' else s
  | EmptyString => EmptyString
  end.

(** Drops the white space at the end: a character is kept when something
    that is kept follows it, or when it is not white space. *)
Fixpoint trim_end (s : string) : string :=
  match s with
  | EmptyString => EmptyString
  | String c s' =>
      match trim_end s' with
      | EmptyString => if is_space c then EmptyString else String c EmptyString
      | t => String c t
      end
  end.

Definition trim (s : string) : string := trim_end (trim_start s).

Fixpoint all_space (s : string) : bool :=
  match s with
  | EmptyString => true
  | String c s' => is_space c && all_space s'
  end.

End Js.

Import Js.

(** ** Backend registry and payload builders *)

Module Registry.

(** The [options] argument of a payload builder. *)
Record Options := mkOptions {
  version : option string;
  guidanceScale : Num;
  enhancePrompt : bool
}.

Record ModelConfig := mkModel {
  id : string;
  name : string;
  description : string;
  model_version : option string;
  endpoint : string;
  payloadBuilder : string -> Options -> JsVal;
  defaultGuidance : Num
}.

(** The keys of [MODELS]. *)
Inductive ModelId := LtxVideo | Wan25.

Definition opt_str (o : option string) : JsVal :=
  match o with
  | Some s => JStr s
  | None => JUndefined
  end.

Definition negative_prompt : string :=
  "low quality, worst quality, deformed, distorted, watermark".

Definition ltx_payload (prompt : string) (o : Options) : JsVal :=
  JObj [ ("version", opt_str (version o));
         ("input", JObj [ ("prompt", JStr prompt);
                          ("aspect_ratio", JStr "16:9");
                          ("negative_prompt", JStr negative_prompt);
                          ("guidance_scale", JNum (guidanceScale o)) ]) ].

Definition wan_payload (prompt : string) (o : Options) : JsVal :=
  JObj [ ("input", JObj [ ("prompt", JStr prompt);
                          ("aspect_ratio", JStr "16:9");
                          ("negative_prompt", JStr negative_prompt);
                          ("guidance_scale", JNum (guidanceScale o));
                          ("enable_prompt_expansion", JBool (enhancePrompt o)) ]) ].

Definition MODELS (m : ModelId) : ModelConfig :=
  match m with
  | LtxVideo =>
      {| id := "ltx-video";
         name := "Lightricks LTX Video";
         description := "Fast, high-quality video generation";
         model_version :=
           Some "8c47da666861d081eeb4d1261853087de23923a268a69b63febdf5dc1dee08e4";
         endpoint := "/api/replicate/predictions";
         payloadBuilder := ltx_payload;
         defaultGuidance := mkNum 30 1 |}
  | Wan25 =>
      {| id := "wan-2.5";
         name := "Wan 2.5 (Alibaba)";
         description := "Advanced Chinese/English T2V model";
         model_version := None;
         endpoint := "/api/replicate/models/wan-video/wan-2.5-t2v/predictions";
         payloadBuilder := wan_payload;
         defaultGuidance := mkNum 50 1 |}
  end.

(** The option fields a builder destructures from its second argument. *)
Definition honoured (m : ModelId) : list string :=
  match m with
  | LtxVideo => ["version"; "guidanceScale"]
  | Wan25 => ["guidanceScale"; "enhancePrompt"]
  end.

(** The tuning options of the component's advanced settings. *)
Definition tuning_options : list string := ["guidanceScale"; "enhancePrompt"].

(** The payload property that carries each tuning option. *)
Definition tuning_key (option_name : string) : string :=
  if (option_name =? "guidanceScale")%string then "guidance_scale"
  else if (option_name =? "enhancePrompt")%string then "enable_prompt_expansion"
  else option_name.

End Registry.

Import Registry.

(** ** Network operations

    [fetch] either resolves to a response or rejects with an error; reading
    the body with [response.json()] either yields a value or rejects.  The
    errors raised by these operations are [Error] objects and are kept by
    their [message]. *)

Module Net.

Record Request := mkRequest {
  url : string;
  method : string;
  headers : list (string * string);
  body : option JsVal       (* the value whose JSON text is sent *)
}.

Inductive Body :=
| Json (v : JsVal)
| NotJson (message : string).

Record Response := mkResponse {
  status : Z;
  payload : Body
}.

(** [response.ok]: the status is in the range 200-299. *)
Definition ok (r : Response) : bool :=
  (200 <=? status r) && (status r <=? 299).

Inductive FetchResult :=
| Resolved (r : Response)
| Rejected (message : string).

Fixpoint header (k : string) (hs : list (string * string)) : option string :=
  match hs with
  | [] => None
  | (k', v) :: hs' => if (k =? k')%string then Some v else header k hs'
  end.

End Net.

Import Net.

(** ** The proxy gateway ([functions/index.js]) *)

Module Proxy.

(** Where the handler looks for the credential. *)
Record Config := mkConfig {
  env_token : option string;       (* process.env.REPLICATE_API_TOKEN *)
  config_token : option string     (* functions.config().replicate?.token *)
}.

Definition truthy_str (o : option string) : bool :=
  match o with
  | Some s => negb (s =? "")%string
  | None => false
  end.

(** [process.env.REPLICATE_API_TOKEN || functions.config().replicate?.token] *)
Definition apiToken (c : Config) : option string :=
  if truthy_str (env_token c) then env_token c else config_token c.

(** The incoming Express request. *)
Record Incoming := mkIncoming {
  req_method : string;
  req_path : string;
  req_headers : list (string * string);
  req_body : JsVal
}.

Inductive Sent :=
| SendText (text : string)     (* res.send(text) *)
| SendJson (data : JsVal).     (* res.json(data) *)

Record Reply := mkReply {
  code : Z;
  sent : Sent
}.

Definition prefix_path : string := "/api/replicate".

(** [req.path.replace] with the pattern anchored at the start of the path:
    a leading /api/replicate is replaced by the empty string. *)
Definition strip (s : string) : string :=
  if prefix prefix_path s
  then substring (length prefix_path) (length s - length prefix_path) s
  else s.

(** [req.path.replace(...) || req.path]: an empty result is falsy, and the
    path is then kept as it came. *)
Definition targetPath (path : string) : string :=
  if (strip path =? "")%string then path else strip path.

Definition targetUrl (path : string) : string :=
  "https://api.replicate.com/v1" ++ targetPath path.

(** [JSON.stringify(req.body)] for POST and PUT, [undefined] otherwise. *)
Definition forwarded_body (req : Incoming) : option JsVal :=
  if ((req_method req =? "POST") || (req_method req =? "PUT"))%string
  then match req_body req with
       | JUndefined => None
       | v => Some v
       end
  else None.

Definition upstream_request (token : string) (req : Incoming) : Request :=
  {| url := targetUrl (req_path req);
     method := req_method req;
     headers := [ ("Content-Type", "application/json");
                  ("Authorization", "Token " ++ token) ];
     body := forwarded_body req |}.

Definition config_error : Reply :=
  {| code := 500;
     sent := SendText "Server configuration error: Missing API Token" |}.

Definition proxy_error (message : string) : Reply :=
  {| code := 500;
     sent := SendJson (JObj [ ("error", JStr "Failed to proxy request");
                              ("details", JStr message) ]) |}.

(** The catch-all [app.all] handler: the reply, and the calls made upstream
    (console output is not recorded). *)
Definition handler (c : Config) (upstream : Request -> FetchResult)
           (req : Incoming) : Reply * list Request :=
  match apiToken c with
  | None => (config_error, [])
  | Some token =>
      if (token =? "")%string then (config_error, [])
      else
        let out := upstream_request token req in
        match upstream out with
        | Resolved response =>
            match payload response with
            | Json data => ({| code := status response; sent := SendJson data |}, [out])
            | NotJson message => (proxy_error message, [out])
            end
        | Rejected message => (proxy_error message, [out])
        end
  end.

End Proxy.

(** ** The job orchestrator ([handleGenerate] of the component) *)

Module Orchestrator.

(** The state of the component that [handleGenerate] reads and writes. *)
Record Ui := mkUi {
  selectedModelId : ModelId;
  inputText : string;
  videoUrl : JsVal;
  loading : bool;
  error : string;
  status : string;
  guidanceScale : Num;
  enhancePrompt : bool
}.

Definition setVideoUrl (v : JsVal) (u : Ui) : Ui :=
  mkUi (selectedModelId u) (inputText u) v (loading u) (error u) (status u)
       (guidanceScale u) (enhancePrompt u).

Definition setLoading (b : bool) (u : Ui) : Ui :=
  mkUi (selectedModelId u) (inputText u) (videoUrl u) b (error u) (status u)
       (guidanceScale u) (enhancePrompt u).

Definition setError (m : string) (u : Ui) : Ui :=
  mkUi (selectedModelId u) (inputText u) (videoUrl u) (loading u) m (status u)
       (guidanceScale u) (enhancePrompt u).

Definition setStatus (s : string) (u : Ui) : Ui :=
  mkUi (selectedModelId u) (inputText u) (videoUrl u) (loading u) (error u) s
       (guidanceScale u) (enhancePrompt u).

(** The state after the [useState] initialisers. *)
Definition initial : Ui :=
  mkUi LtxVideo "" (JStr "") false "" ""
       (defaultGuidance (MODELS LtxVideo)) true.

(** [import.meta.env] of the client bundle. *)
Record ClientEnv := mkEnv {
  VITE_REPLICATE_API_TOKEN : option string
}.

(** The template [`Bearer ${import.meta.env.VITE_REPLICATE_API_TOKEN}`]. *)
Definition bearer (env : ClientEnv) : string :=
  "Bearer " ++ ToString (opt_str (VITE_REPLICATE_API_TOKEN env)).

(** What the function does to the outside: requests and timer waits
    (console output is not recorded). *)
Inductive Effect :=
| Fetch (r : Request)
| Sleep (ms : Z).

(** A computation that may throw an [Error] with a message. *)
Inductive Res (A : Type) :=
| Val (a : A)
| Throw (message : string).
Arguments Val {A} a.
Arguments Throw {A} message.

Definition bind {A B : Type} (r : Res A) (k : A -> Res B) : Res B :=
  match r with
  | Val a => k a
  | Throw m => Throw m
  end.

Notation "x <- r ;; k" := (bind r (fun x => k))
  (at level 61, r at next level, right associativity).

(** The TypeError raised by reading a property of [null] or [undefined]
    (the text is the one V8 produces). *)
Definition type_error (base : JsVal) (prop : string) : string :=
  "Cannot read properties of " ++ ToString base ++ " (reading '" ++ prop ++ "')".

Definition read (v : JsVal) (prop : string) : Res JsVal :=
  match get_prop v prop with
  | Some x => Val x
  | None => Throw (type_error v prop)
  end.

(** [await fetch(...)] once the fetch has settled. *)
Definition settle (f : FetchResult) : Res Response :=
  match f with
  | Resolved r => Val r
  | Rejected m => Throw m
  end.

(** [await response.json()] *)
Definition json (r : Response) : Res JsVal :=
  match payload r with
  | Json v => Val v
  | NotJson m => Throw m
  end.

(** The check made on both the submission and the poll response:
    [if (!response.ok) { const err = await response.json();
                         throw new Error(err.detail || fallback); }
     ... await response.json()] *)
Definition accept (fallback : string) (r : Response) : Res JsVal :=
  if negb (ok r) then
    err <- json r ;;
    d <- read err "detail" ;;
    Throw (ToString (js_or d (JStr fallback)))
  else json r.

(** The argument of [setStatus(`Generation ${prediction.status}...`)]. *)
Definition status_text (prediction : JsVal) : Res string :=
  s <- read prediction "status" ;;
  Val ("Generation " ++ ToString s ++ "...").

(** A response, from the settled fetch to the new prediction and the
    status line that is displayed for it. *)
Definition receive (fallback : string) (f : FetchResult) : Res (JsVal * string) :=
  r <- settle f ;;
  p <- accept fallback r ;;
  t <- status_text p ;;
  Val (p, t).

(** The condition of the [while] loop. *)
Definition loop_cond (prediction : JsVal) : Res bool :=
  s <- read prediction "status" ;;
  Val (strict_neq_str s "succeeded"
       && strict_neq_str s "failed"
       && strict_neq_str s "canceled").

Definition submit_request (env : ClientEnv) (u : Ui) : Request :=
  let modelConfig := MODELS (selectedModelId u) in
  let body := payloadBuilder modelConfig (inputText u)
                {| Registry.version := model_version modelConfig;
                   Registry.guidanceScale := guidanceScale u;
                   Registry.enhancePrompt := enhancePrompt u |} in
  {| url := endpoint modelConfig;
     method := "POST";
     headers := [ ("Content-Type", "application/json");
                  ("Authorization", bearer env) ];
     body := Some body |}.

Definition poll_request (env : ClientEnv) (prediction : JsVal) : Res Request :=
  i <- read prediction "id" ;;
  Val {| url := "/api/replicate/predictions/" ++ ToString i;
         method := "GET";
         headers := [ ("Authorization", bearer env) ];
         body := None |}.

(** How far an asynchronous computation got. *)
Inductive Step (A : Type) :=
| Done (a : A)
| Raised (message : string)
| Awaiting.                   (* suspended on a fetch that has not settled *)
Arguments Done {A} a.
Arguments Raised {A} message.
Arguments Awaiting {A}.

Definition poll_interval : Z := 2000.

(** The [while] loop.  The script holds the results of the fetches still to
    come, in order; when it is used up the loop is left suspended. *)
Fixpoint poll_loop (env : ClientEnv) (prediction : JsVal) (u : Ui)
         (script : list FetchResult) {struct script}
  : Ui * list Effect * Step JsVal :=
  match loop_cond prediction with
  | Throw m => (u, [], Raised m)
  | Val false => (u, [], Done prediction)
  | Val true =>
      match poll_request env prediction with
      | Throw m => (u, [Sleep poll_interval], Raised m)
      | Val req =>
          match script with
          | [] => (u, [Sleep poll_interval; Fetch req], Awaiting)
          | f :: script' =>
              match receive "Failed to poll status" f with
              | Throw m => (u, [Sleep poll_interval; Fetch req], Raised m)
              | Val (p, t) =>
                  let '(u', tr, s) := poll_loop env p (setStatus t u) script' in
                  (u', Sleep poll_interval :: Fetch req :: tr, s)
              end
          end
      end
  end.

(** The statement after the loop: the resolved media location, or the
    error that is thrown. *)
Definition extract (prediction : JsVal) : Res JsVal :=
  s <- read prediction "status" ;;
  if strict_eq_str s "succeeded" then
    output <- read prediction "output" ;;
    if truthy output then Val (first_or_self output)
    else Throw ("Generation failed with status: " ++ ToString s)
  else Throw ("Generation failed with status: " ++ ToString s).

(** The body of the [try] block. *)
Definition try_body (env : ClientEnv) (u : Ui) (script : list FetchResult)
  : Ui * list Effect * Step unit :=
  let req := submit_request env u in
  match script with
  | [] => (u, [Fetch req], Awaiting)
  | f :: script' =>
      match receive "Failed to start video generation" f with
      | Throw m => (u, [Fetch req], Raised m)
      | Val (p, t) =>
          let '(u', tr, s) := poll_loop env p (setStatus t u) script' in
          match s with
          | Done prediction =>
              match extract prediction with
              | Val url => (setVideoUrl url u', Fetch req :: tr, Done tt)
              | Throw m => (u', Fetch req :: tr, Raised m)
              end
          | Raised m => (u', Fetch req :: tr, Raised m)
          | Awaiting => (u', Fetch req :: tr, Awaiting)
          end
      end
  end.

(** The outcome of a call: the state it leaves, what it did, and whether
    the returned promise has settled. *)
Record Run := mkRun {
  ui : Ui;
  trace : list Effect;
  settled : bool
}.

(** [setError(err.message || '...')] of the [catch] block. *)
Definition catch_message (m : string) : string :=
  if (m =? "")%string then "An error occurred while generating the video" else m.

Definition finally (u : Ui) : Ui := setStatus "" (setLoading false u).

Definition handleGenerate (env : ClientEnv) (u : Ui) (script : list FetchResult) : Run :=
  if negb (truthy (JStr (trim (inputText u)))) then
    {| ui := setError "Please enter a description for your video" u;
       trace := [];
       settled := true |}
  else
    let u1 := setStatus "Starting generation..."
                (setVideoUrl (JStr "") (setError "" (setLoading true u))) in
    match try_body env u1 script with
    | (u2, tr, Done _) => {| ui := finally u2; trace := tr; settled := true |}
    | (u2, tr, Raised m) =>
        {| ui := finally (setError (catch_message m) u2); trace := tr; settled := true |}
    | (u2, tr, Awaiting) => {| ui := u2; trace := tr; settled := false |}
    end.

(** The requests among the effects. *)
Fixpoint requests (tr : list Effect) : list Request :=
  match tr with
  | [] => []
  | Fetch r :: tr' => r :: requests tr'
  | Sleep _ :: tr' => requests tr'
  end.

(** The terminal state of the job as the state of the component shows it:
    an error message is displayed, or the media location is set. *)
Inductive Terminal :=
| Succeeded (url : JsVal)
| Failed (message : string).

Definition terminal (r : Run) : option Terminal :=
  if settled r then
    if (error (ui r) =? "")%string then Some (Succeeded (videoUrl (ui r)))
    else Some (Failed (error (ui r)))
  else None.

(** A response with a JSON body. *)
Definition reply (code : Z) (v : JsVal) : FetchResult :=
  Resolved {| Net.status := code; payload := Json v |}.

(** *** Predictions that are JSON objects

    The loop condition, the status line and the poll request of a
    prediction given by its fields. *)

Definition nonterminal (p : list (string * JsVal)) : bool :=
  strict_neq_str (lookup "status" p) "succeeded"
  && strict_neq_str (lookup "status" p) "failed"
  && strict_neq_str (lookup "status" p) "canceled".

Definition line (p : list (string * JsVal)) : string :=
  "Generation " ++ ToString (lookup "status" p) ++ "...".

Definition poll_of (env : ClientEnv) (p : list (string * JsVal)) : Request :=
  {| url := "/api/replicate/predictions/" ++ ToString (lookup "id" p);
     method := "GET";
     headers := [ ("Authorization", bearer env) ];
     body := None |}.

(** One turn of the loop, seen from outside. *)
Definition poll_step (env : ClientEnv) (p : list (string * JsVal)) : list Effect :=
  [Sleep poll_interval; Fetch (poll_of env p)].

(** The longest prefix whose elements all satisfy [f]. *)
Fixpoint leading {A : Type} (f : A -> bool) (l : list A) : list A :=
  match l with
  | [] => []
  | x :: l' => if f x then x :: leading f l' else []
  end.

(** Successful responses carrying the given predictions. *)
Definition replies (ps : list (list (string * JsVal))) : list FetchResult :=
  map (fun p => reply 200 (JObj p)) ps.

(** The fallback message of the request that got the response: the
    submission when no prediction was received before, a poll otherwise. *)
Definition fallback_after (ps : list (list (string * JsVal))) : string :=
  match ps with
  | [] => "Failed to start video generation"
  | _ => "Failed to poll status"
  end.

(** The state in which the [try] block starts. *)
Definition started (u : Ui) : Ui :=
  setStatus "Starting generation..."
    (setVideoUrl (JStr "") (setError "" (setLoading true u))).

End Orchestrator.

Import Orchestrator.

(** ** The rest of the component: handlers and what is rendered *)

Module Component.

(** The key of a model in [MODELS], which is the value of [selectedModelId]. *)
Definition model_key (m : ModelId) : string :=
  match m with
  | LtxVideo => "ltx-video"
  | Wan25 => "wan-2.5"
  end.

Definition setSelectedModelId (m : ModelId) (u : Ui) : Ui :=
  mkUi m (inputText u) (videoUrl u) (loading u) (error u) (status u)
       (guidanceScale u) (enhancePrompt u).

Definition setInputText (s : string) (u : Ui) : Ui :=
  mkUi (selectedModelId u) s (videoUrl u) (loading u) (error u) (status u)
       (guidanceScale u) (enhancePrompt u).

Definition setGuidanceScale (g : Num) (u : Ui) : Ui :=
  mkUi (selectedModelId u) (inputText u) (videoUrl u) (loading u) (error u) (status u)
       g (enhancePrompt u).

Definition setEnhancePrompt (b : bool) (u : Ui) : Ui :=
  mkUi (selectedModelId u) (inputText u) (videoUrl u) (loading u) (error u) (status u)
       (guidanceScale u) b.

(** [handleModelChange]: the model is selected and the guidance scale is
    set to the default of that model. *)
Definition handleModelChange (modelId : ModelId) (u : Ui) : Ui :=
  setGuidanceScale (defaultGuidance (MODELS modelId)) (setSelectedModelId modelId u).

(** The [onClick] of the prompt-enhancement switch. *)
Definition toggleEnhancePrompt (u : Ui) : Ui :=
  setEnhancePrompt (negb (enhancePrompt u)) u.

(** The anchor element that [handleDownload] creates: the value assigned to
    [href], as a string, and the file name. *)
Record Anchor := mkAnchor {
  href : string;
  download : string
}.

Inductive DomEffect :=
| AppendChild (a : Anchor)      (* document.body.appendChild(a) *)
| Click (a : Anchor)            (* a.click() *)
| RemoveChild (a : Anchor).     (* document.body.removeChild(a) *)

(** [handleDownload] *)
Definition handleDownload (u : Ui) : list DomEffect :=
  if truthy (videoUrl u) then
    let a := {| href := ToString (videoUrl u);
                download := "generated-" ++ model_key (selectedModelId u) ++ ".mp4" |} in
    [AppendChild a; Click a; RemoveChild a]
  else [].

(** What the component renders of its state: the conditions of the JSX, one
    field for each conditional element. *)
Record View := mkView {
  placeholder : string;            (* of the textarea *)
  inputs_disabled : bool;          (* textarea and Generate button: disabled={loading} *)
  generate_label : string;         (* the text of the Generate button *)
  guidance_slider : option Num;    (* showAdvanced && the range input *)
  enhance_switch : option bool;    (* showAdvanced && selectedModelId === 'wan-2.5' *)
  error_line : option string;      (* error && the red line *)
  status_line : option string;     (* status && the blue line *)
  player : option JsVal;           (* videoUrl && the video with its Save button *)
  waiting_note : bool              (* loading && !videoUrl *)
}.

Definition shown (s : string) : option string :=
  if (s =? "")%string then None else Some s.

Definition render (showAdvanced : bool) (u : Ui) : View :=
  {| placeholder :=
       "Describe the video you want " ++ name (MODELS (selectedModelId u))
         ++ " to create...";
     inputs_disabled := loading u;
     generate_label := if loading u then "Generating..." else "Generate Video";
     guidance_slider := if showAdvanced then Some (guidanceScale u) else None;
     enhance_switch :=
       if showAdvanced
       then if (model_key (selectedModelId u) =? "wan-2.5")%string
            then Some (enhancePrompt u) else None
       else None;
     error_line := shown (error u);
     status_line := shown (status u);
     player := if truthy (videoUrl u) then Some (videoUrl u) else None;
     waiting_note := loading u && negb (truthy (videoUrl u)) |}.

(** The three ways a call with a prompt can stand: still waiting for a
    response, returned with a media location, or returned with an error. *)
Inductive Shape (u : Ui) (r : Run) : Prop :=
| Waiting (t : string) :
    settled r = false -> t <> "" -> ui r = setStatus t (started u) -> Shape u r
| Resolved_with (url : JsVal) :
    settled r = true -> ui r = finally (setVideoUrl url (started u)) -> Shape u r
| Failed_with (m : string) :
    settled r = true -> ui r = finally (setError (catch_message m) (started u)) ->
    Shape u r.


End Component.

Import Component.

(** ** Concrete inputs *)

Module Scenarios.

Definition env_with_token : ClientEnv := mkEnv (Some "r8_client_token").

(** The component after the user typed a prompt, model [ltx-video]. *)
Definition typed (prompt : string) : Ui :=
  mkUi LtxVideo prompt (JStr "") false "" ""
       (defaultGuidance (MODELS LtxVideo)) true.

Definition cat : Ui := typed "a cat riding a bicycle".

Definition starting : list (string * JsVal) :=
  [ ("id", JStr "abc"); ("status", JStr "starting") ].

Definition processing : list (string * JsVal) :=
  [ ("id", JStr "abc"); ("status", JStr "processing") ].

Definition succeeded_with_video : list (string * JsVal) :=
  [ ("id", JStr "abc"); ("status", JStr "succeeded");
    ("output", JArr [JStr "https://cdn/x.mp4"]) ].

Definition succeeded_without_output : list (string * JsVal) :=
  [ ("id", JStr "abc"); ("status", JStr "succeeded") ].

Definition succeeded_with_empty_output : list (string * JsVal) :=
  [ ("id", JStr "abc"); ("status", JStr "succeeded"); ("output", JArr []) ].

Definition insufficient_credit : Response :=
  {| Net.status := 402;
     payload := Json (JObj [ ("detail", JStr "insufficient credit") ]) |}.

(** A 500 whose body is plain text, such as the configuration error of
    the proxy; reading it as JSON fails. *)
Definition plain_text_500 : Response :=
  {| Net.status := 500;
     payload := NotJson "Unexpected token S in JSON at position 0" |}.

End Scenarios.

(** ** The rejection message as the specification words it *)

Module AsStated.

(** The message the specification gives to a response with a non-success
    status: the [detail] field of the response body when present, the
    generic fallback otherwise. *)
Definition rejection_message (fallback : string) (r : Response) : string :=
  match payload r with
  | Json (JObj fields) =>
      match lookup "detail" fields with
      | JUndefined => fallback
      | d => ToString d
      end
  | _ => fallback
  end.

End AsStated.

(** * Properties *)

(** ** Strings *)

Lemma prefix_app (p s : string) : prefix p (p ++ s) = true.
Proof.
  induction p as [|c p IH]; simpl.
  - now destruct s.
  - destruct (ascii_dec c c) as [_|n]; [exact IH | now elim n].
Qed.

Lemma substring_all (s : string) : substring 0 (String.length s) s = s.
Proof.
  induction s as [|c s IH]; simpl; [reflexivity | now rewrite IH].
Qed.

Lemma substring_skip (p s : string) (n : nat) :
  substring (String.length p) n (p ++ s) = substring 0 n s.
Proof.
  induction p as [|c p IH]; simpl; [reflexivity | exact IH].
Qed.

Lemma length_app (p s : string) :
  String.length (p ++ s) = (String.length p + String.length s)%nat.
Proof.
  induction p as [|c p IH]; simpl; [reflexivity | now rewrite IH].
Qed.

Lemma trim_start_all_space (s : string) :
  all_space s = true -> trim_start s = "".
Proof.
  induction s as [|c s IH]; simpl; [reflexivity|].
  destruct (is_space c); simpl; [exact IH | discriminate].
Qed.

Lemma all_space_trim (s : string) : all_space s = true -> trim s = "".
Proof.
  intros H. unfold trim. now rewrite trim_start_all_space.
Qed.

(** ** The poll loop on object predictions *)

Section PollLoop.

Variable env : ClientEnv.

Lemma loop_cond_obj p : loop_cond (JObj p) = Val (nonterminal p).
Proof. reflexivity. Qed.

Lemma poll_loop_stop p u script :
  nonterminal p = false ->
  poll_loop env (JObj p) u script = (u, [], Done (JObj p)).
Proof.
  intros H. destruct script; simpl; unfold nonterminal in H; now rewrite H.
Qed.

Lemma poll_loop_turn p q u script :
  nonterminal p = true ->
  poll_loop env (JObj p) u (reply 200 (JObj q) :: script) =
    let '(u', tr, s) := poll_loop env (JObj q) (setStatus (line q) u) script in
    (u', (poll_step env p ++ tr)%list, s).
Proof.
  intros H. cbn -[poll_loop]. unfold nonterminal in H.
  change (poll_loop env (JObj p) u (reply 200 (JObj q) :: script))
    with (match loop_cond (JObj p) with
          | Throw m => (u, [], Raised m)
          | Val false => (u, [], Done (JObj p))
          | Val true =>
              let '(u', tr, s) :=
                poll_loop env (JObj q) (setStatus (line q) u) script in
              (u', Sleep poll_interval :: Fetch (poll_of env p) :: tr, s)
          end).
  rewrite loop_cond_obj. unfold nonterminal. rewrite H. reflexivity.
Qed.

Lemma poll_loop_trace ps : forall p u,
  snd (fst (poll_loop env (JObj p) u (replies ps))) =
  flat_map (poll_step env) (leading nonterminal (p :: ps)).
Proof.
  induction ps as [|q ps IH]; intros p u.
  - simpl leading. destruct (nonterminal p) eqn:E.
    + simpl. unfold nonterminal in E. rewrite E. reflexivity.
    + now rewrite poll_loop_stop.
  - simpl leading. destruct (nonterminal p) eqn:E.
    + change (replies (q :: ps)) with (reply 200 (JObj q) :: replies ps).
      rewrite poll_loop_turn by exact E.
      specialize (IH q (setStatus (line q) u)).
      destruct (poll_loop env (JObj q) (setStatus (line q) u) (replies ps))
        as [[u' tr] s].
      simpl in IH. cbn [fst snd flat_map]. now rewrite IH.
    + now rewrite poll_loop_stop.
Qed.

(** Non-terminal predictions [p :: qs] followed by a terminal one. *)
Lemma poll_loop_until qs : forall p q u rest,
  forallb nonterminal (p :: qs) = true ->
  nonterminal q = false ->
  poll_loop env (JObj p) u (replies (qs ++ [q]) ++ rest) =
    (setStatus (line q) u, flat_map (poll_step env) (p :: qs), Done (JObj q)).
Proof.
  induction qs as [|q' qs IH]; intros p q u rest Hall Hq;
    simpl in Hall; apply andb_prop in Hall; destruct Hall as [Hp Hqs].
  - change (replies ([] ++ [q]) ++ rest)%list with (reply 200 (JObj q) :: rest).
    rewrite poll_loop_turn by exact Hp.
    rewrite poll_loop_stop by exact Hq. reflexivity.
  - change (replies ((q' :: qs) ++ [q]) ++ rest)%list
      with (reply 200 (JObj q') :: (replies (qs ++ [q]) ++ rest))%list.
    rewrite poll_loop_turn by exact Hp.
    rewrite (IH q' q (setStatus (line q') u) rest Hqs Hq). reflexivity.
Qed.

End PollLoop.

(** ** Whole runs of [handleGenerate] *)

Lemma has_prompt (s : string) : trim s <> "" -> negb (truthy (JStr (trim s))) = false.
Proof.
  intros H. simpl. apply String.eqb_neq in H. now rewrite H.
Qed.

Lemma catch_message_nonempty (m : string) : (catch_message m =? "")%string = false.
Proof.
  unfold catch_message. destruct (m =? "")%string eqn:E; [reflexivity | exact E].
Qed.

Lemma receive_reply fallback p :
  receive fallback (reply 200 (JObj p)) = Val (JObj p, line p).
Proof. reflexivity. Qed.

(** Only [response.ok] matters of the status code of a response. *)
Lemma receive_any_success fallback code v :
  200 <= code <= 299 ->
  receive fallback (reply code v) = receive fallback (reply 200 v).
Proof.
  intros [Hlo Hhi]. unfold receive, settle, reply, accept, ok. simpl.
  apply Z.leb_le in Hlo, Hhi. now rewrite Hlo, Hhi.
Qed.

Lemma poll_loop_nil env pr u :
  poll_loop env pr u [] =
    match loop_cond pr with
    | Throw m => (u, [], Raised m)
    | Val false => (u, [], Done pr)
    | Val true =>
        match poll_request env pr with
        | Throw m => (u, [Sleep poll_interval], Raised m)
        | Val req => (u, [Sleep poll_interval; Fetch req], Awaiting)
        end
    end.
Proof. reflexivity. Qed.

Lemma poll_loop_cons env pr u f script :
  poll_loop env pr u (f :: script) =
    match loop_cond pr with
    | Throw m => (u, [], Raised m)
    | Val false => (u, [], Done pr)
    | Val true =>
        match poll_request env pr with
        | Throw m => (u, [Sleep poll_interval], Raised m)
        | Val req =>
            match receive "Failed to poll status" f with
            | Throw m => (u, [Sleep poll_interval; Fetch req], Raised m)
            | Val (p, t) =>
                let '(u', tr, s) := poll_loop env p (setStatus t u) script in
                (u', Sleep poll_interval :: Fetch req :: tr, s)
            end
        end
    end.
Proof. reflexivity. Qed.

Lemma try_body_cons env u f script :
  try_body env u (f :: script) =
    match receive "Failed to start video generation" f with
    | Throw m => (u, [Fetch (submit_request env u)], Raised m)
    | Val (p, t) =>
        let '(u', tr, s) := poll_loop env p (setStatus t u) script in
        match s with
        | Done prediction =>
            match extract prediction with
            | Val url => (setVideoUrl url u', Fetch (submit_request env u) :: tr, Done tt)
            | Throw m => (u', Fetch (submit_request env u) :: tr, Raised m)
            end
        | Raised m => (u', Fetch (submit_request env u) :: tr, Raised m)
        | Awaiting => (u', Fetch (submit_request env u) :: tr, Awaiting)
        end
    end.
Proof. reflexivity. Qed.

(** The loop changes nothing of the state but the status line. *)
Lemma poll_loop_status env script : forall pr u,
  exists t, fst (fst (poll_loop env pr u script)) = setStatus t u.
Proof.
  assert (Hself : forall u, exists t, u = setStatus t u)
    by (intros [? ? ? ? ? st ? ?]; now exists st).
  induction script as [|f script IH]; intros pr u.
  - rewrite poll_loop_nil.
    destruct (loop_cond pr) as [[|]|]; [|apply Hself..].
    destruct (poll_request env pr); apply Hself.
  - rewrite poll_loop_cons.
    destruct (loop_cond pr) as [[|]|]; [|apply Hself..].
    destruct (poll_request env pr); [|apply Hself].
    destruct (receive "Failed to poll status" f) as [[p t]|]; [|apply Hself].
    destruct (IH p (setStatus t u)) as [t' Ht'].
    destruct (poll_loop env p (setStatus t u) script) as [[u' tr] s].
    simpl in *. exists t'. now rewrite Ht'.
Qed.

(** A failing response after non-terminal predictions [p :: qs]. *)
Lemma poll_loop_raise env qs : forall p u f rest m,
  forallb nonterminal (p :: qs) = true ->
  receive "Failed to poll status" f = Throw m ->
  exists t,
    poll_loop env (JObj p) u (replies qs ++ f :: rest) =
      (setStatus t u, flat_map (poll_step env) (p :: qs), Raised m).
Proof.
  induction qs as [|q qs IH]; intros p u f rest m Hall Hf;
    simpl in Hall; apply andb_prop in Hall; destruct Hall as [Hp Hqs].
  - change (replies [] ++ f :: rest)%list with (f :: rest).
    rewrite poll_loop_cons, loop_cond_obj, Hp, Hf.
    destruct u as [? ? ? ? ? st ? ?]. now exists st.
  - change (replies (q :: qs) ++ f :: rest)%list
      with (reply 200 (JObj q) :: (replies qs ++ f :: rest))%list.
    rewrite poll_loop_turn by exact Hp.
    destruct (IH q (setStatus (line q) u) f rest m Hqs Hf) as [t Ht].
    rewrite Ht. now exists t.
Qed.

Section Runs.

Variables (env : ClientEnv) (u : Ui).
Hypothesis prompt_given : trim (inputText u) <> "".

(** A run whose responses are all successful and end with a terminal
    prediction [q]. *)
Lemma run_until ps q rest :
  forallb nonterminal ps = true ->
  nonterminal q = false ->
  handleGenerate env u (replies (ps ++ [q]) ++ rest) =
    {| ui := match extract (JObj q) with
             | Val url => finally (setVideoUrl url (started u))
             | Throw m => finally (setError (catch_message m) (started u))
             end;
       trace := Fetch (submit_request env u) :: flat_map (poll_step env) ps;
       settled := true |}.
Proof.
  intros Hps Hq. unfold handleGenerate.
  rewrite (has_prompt _ prompt_given). fold (started u).
  destruct ps as [|p ps].
  - change (replies ([] ++ [q]) ++ rest)%list with (reply 200 (JObj q) :: rest).
    rewrite try_body_cons, receive_reply. rewrite poll_loop_stop by exact Hq.
    destruct (extract (JObj q)); reflexivity.
  - change (replies ((p :: ps) ++ [q]) ++ rest)%list
      with (reply 200 (JObj p) :: (replies (ps ++ [q]) ++ rest))%list.
    rewrite try_body_cons, receive_reply. rewrite (poll_loop_until env ps p q _ rest Hps Hq).
    destruct (extract (JObj q)); reflexivity.
Qed.

(** A run that meets a failing response after non-terminal predictions. *)
Lemma run_raise ps f rest m :
  forallb nonterminal ps = true ->
  receive (fallback_after ps) f = Throw m ->
  handleGenerate env u (replies ps ++ f :: rest) =
    {| ui := finally (setError (catch_message m) (started u));
       trace := Fetch (submit_request env u) :: flat_map (poll_step env) ps;
       settled := true |}.
Proof.
  intros Hps Hf. unfold handleGenerate.
  rewrite (has_prompt _ prompt_given). fold (started u).
  destruct ps as [|p ps].
  - change (replies [] ++ f :: rest)%list with (f :: rest).
    rewrite try_body_cons. simpl in Hf. rewrite Hf. reflexivity.
  - change (replies (p :: ps) ++ f :: rest)%list
      with (reply 200 (JObj p) :: (replies ps ++ f :: rest))%list.
    rewrite try_body_cons, receive_reply.
    destruct (poll_loop_raise env ps p (setStatus (line p) (started u)) f rest m Hps Hf)
      as [t Ht].
    rewrite Ht. reflexivity.
Qed.

(** The requests and waits of a run whose responses are all successful. *)
Lemma run_trace p ps :
  trace (handleGenerate env u (replies (p :: ps))) =
    Fetch (submit_request env u)
      :: flat_map (poll_step env) (leading nonterminal (p :: ps)).
Proof.
  unfold handleGenerate.
  rewrite (has_prompt _ prompt_given). fold (started u).
  change (replies (p :: ps)) with (reply 200 (JObj p) :: replies ps).
  rewrite try_body_cons, receive_reply.
  pose proof (poll_loop_trace env ps p (setStatus (line p) (started u))) as Ht.
  destruct (poll_loop env (JObj p) (setStatus (line p) (started u)) (replies ps))
    as [[u' tr] s].
  simpl in Ht. subst tr.
  destruct s as [pr| |]; [destruct (extract pr)| |]; reflexivity.
Qed.

End Runs.

(** ** The orchestrator: claims about the poll loop and the result *)

(** C2.  Polling goes on exactly while the observed status is none of
    [succeeded], [failed], [canceled]: the loop condition is false exactly
    on these three status strings; when it is false the loop issues no
    request and makes no wait, whatever responses are still available; when
    it is true the loop waits 2000 ms (the fixed interval of two seconds)
    and then issues a GET for the prediction identifier; and over a
    sequence of successful responses the waits and polls are exactly one
    pair for each prediction of the leading non-terminal ones. *)
Theorem polling_exactly_while_nonterminal :
  (forall pr,
      loop_cond pr = Val false <->
      exists s, get_prop pr "status" = Some (JStr s)
                /\ In s ["succeeded"; "failed"; "canceled"])
  /\ (forall env pr u script,
        loop_cond pr = Val false ->
        poll_loop env pr u script = (u, [], Done pr))
  /\ (forall env pr u script,
        loop_cond pr = Val true ->
        exists i u' tr s,
          get_prop pr "id" = Some i
          /\ poll_loop env pr u script =
               (u',
                Sleep 2000
                  :: Fetch {| url := "/api/replicate/predictions/" ++ ToString i;
                              method := "GET";
                              headers := [("Authorization", bearer env)];
                              body := None |}
                  :: tr,
                s))
  /\ (forall env u p ps,
        trim (inputText u) <> "" ->
        trace (handleGenerate env u (replies (p :: ps))) =
          Fetch (submit_request env u)
            :: flat_map (poll_step env) (leading nonterminal (p :: ps))).
Proof.
  split; [|split; [|split]].
  - intros pr. unfold loop_cond, read.
    destruct (get_prop pr "status") as [v|]; simpl.
    + split.
      * intros H. injection H as H.
        destruct v; simpl in H; try discriminate.
        exists s. split; [reflexivity|].
        destruct (String.eqb_spec s "succeeded") as [E|_]; [now left|].
        destruct (String.eqb_spec s "failed") as [E|_]; [now right; left|].
        destruct (String.eqb_spec s "canceled") as [E|_]; [now right; right; left|].
        discriminate.
      * intros (s & Hs & Hin). injection Hs as Hv. subst v. simpl.
        destruct Hin as [<-|[<-|[<-|[]]]]; reflexivity.
    + split; [discriminate | intros (s & Hs & _); discriminate].
  - intros env pr u script H. destruct script.
    + rewrite poll_loop_nil, H. reflexivity.
    + rewrite poll_loop_cons, H. reflexivity.
  - intros env pr u script H.
    assert (Hid : exists i, get_prop pr "id" = Some i).
    { unfold loop_cond, read in H. destruct pr; simpl in H; try discriminate;
        eexists; reflexivity. }
    destruct Hid as [i Hi]. exists i.
    assert (Hreq : poll_request env pr =
                   Val {| url := "/api/replicate/predictions/" ++ ToString i;
                          method := "GET";
                          headers := [("Authorization", bearer env)];
                          body := None |})
      by (unfold poll_request, read; now rewrite Hi).
    destruct script as [|f script].
    + rewrite poll_loop_nil, H, Hreq. now exists u, [], Awaiting.
    + rewrite poll_loop_cons, H, Hreq.
      destruct (receive "Failed to poll status" f) as [[p t]|m].
      * destruct (poll_loop env p (setStatus t u) script) as [[u' tr] s].
        now exists u', tr, s.
      * now exists u, [], (Raised m).
  - intros env u p ps H. now apply run_trace.
Qed.

Lemma polling_exactly_while_nonterminal_witness :
  poll_loop Scenarios.env_with_token (JObj Scenarios.succeeded_with_video)
            Scenarios.cat (replies [Scenarios.processing]) =
    (Scenarios.cat, [], Done (JObj Scenarios.succeeded_with_video))
  /\ trace (handleGenerate Scenarios.env_with_token Scenarios.cat
              (replies [Scenarios.starting; Scenarios.processing;
                        Scenarios.succeeded_with_video; Scenarios.processing])) =
       Fetch (submit_request Scenarios.env_with_token Scenarios.cat)
         :: flat_map (poll_step Scenarios.env_with_token)
              [Scenarios.starting; Scenarios.processing].
Proof.
  destruct polling_exactly_while_nonterminal as (_ & Hstop & _ & Htrace).
  split.
  - apply Hstop. reflexivity.
  - apply (Htrace Scenarios.env_with_token Scenarios.cat Scenarios.starting).
    discriminate.
Defined.

Lemma succeeded_is_terminal q :
  lookup "status" q = JStr "succeeded" -> nonterminal q = false.
Proof. intros H. unfold nonterminal. now rewrite H. Qed.

Lemma terminal_success u tr url :
  terminal {| ui := finally (setVideoUrl url (started u)); trace := tr; settled := true |}
  = Some (Succeeded url).
Proof. reflexivity. Qed.

Lemma terminal_failure u tr m :
  terminal {| ui := finally (setError (catch_message m) (started u));
              trace := tr; settled := true |}
  = Some (Failed (catch_message m)).
Proof.
  unfold terminal. simpl. now rewrite catch_message_nonempty.
Qed.

(** C4.  When the last response has status [succeeded] and an output, the
    run ends in [Succeeded] with the first element of the output when the
    output is a sequence and with the output itself otherwise; with the
    submission answered by id abc, status starting, and the first poll by
    status succeeded and output [https://cdn/x.mp4], the resolved media
    location is https://cdn/x.mp4. *)
Theorem succeeded_output_resolves_media :
  (forall env u ps q rest,
      trim (inputText u) <> "" ->
      forallb nonterminal ps = true ->
      lookup "status" q = JStr "succeeded" ->
      truthy (lookup "output" q) = true ->
      terminal (handleGenerate env u (replies (ps ++ [q]) ++ rest)) =
        Some (Succeeded (first_or_self (lookup "output" q))))
  /\ (forall x items, first_or_self (JArr (x :: items)) = x)
  /\ (forall v, (forall items, v <> JArr items) -> first_or_self v = v)
  /\ (forall env,
        terminal (handleGenerate env Scenarios.cat
                    (replies [Scenarios.starting; Scenarios.succeeded_with_video])) =
          Some (Succeeded (JStr "https://cdn/x.mp4"))).
Proof.
  split; [|split; [|split]].
  - intros env u ps q rest Hprompt Hps Hst Hout.
    rewrite (run_until env u Hprompt ps q rest Hps (succeeded_is_terminal q Hst)).
    assert (E : extract (JObj q) = Val (first_or_self (lookup "output" q))).
    { unfold extract, read. simpl. rewrite Hst. simpl. now rewrite Hout. }
    rewrite E. now apply terminal_success.
  - reflexivity.
  - intros v Hv. destruct v; try reflexivity. now elim (Hv items).
  - intros env. reflexivity.
Qed.

Lemma succeeded_output_resolves_media_witness :
  terminal (handleGenerate Scenarios.env_with_token Scenarios.cat
              (replies ([Scenarios.starting; Scenarios.processing]
                          ++ [Scenarios.succeeded_with_video]) ++ [])) =
    Some (Succeeded (JStr "https://cdn/x.mp4"))
  /\ first_or_self (JStr "https://cdn/y.mp4") = JStr "https://cdn/y.mp4".
Proof.
  destruct succeeded_output_resolves_media as (Hrun & _ & Hself & _).
  split.
  - apply (Hrun Scenarios.env_with_token Scenarios.cat
             [Scenarios.starting; Scenarios.processing]
             Scenarios.succeeded_with_video []);
      [discriminate | reflexivity | reflexivity | reflexivity].
  - apply Hself. discriminate.
Defined.

(** C5.  When the last response has status [succeeded] and no [output]
    field, the run ends in [Failed] (the error thrown for the malformed
    result is displayed) and no media location is set. *)
Theorem succeeded_without_output_fails env u ps q rest :
  trim (inputText u) <> "" ->
  forallb nonterminal ps = true ->
  lookup "status" q = JStr "succeeded" ->
  lookup "output" q = JUndefined ->
  let r := handleGenerate env u (replies (ps ++ [q]) ++ rest) in
  terminal r = Some (Failed "Generation failed with status: succeeded")
  /\ videoUrl (ui r) = JStr "".
Proof.
  intros Hprompt Hps Hst Hout r. subst r.
  rewrite (run_until env u Hprompt ps q rest Hps (succeeded_is_terminal q Hst)).
  assert (E : extract (JObj q) = Throw "Generation failed with status: succeeded").
  { unfold extract, read. simpl. rewrite Hst. simpl. now rewrite Hout. }
  rewrite E. split; reflexivity.
Qed.

Lemma succeeded_without_output_fails_witness :
  let r := handleGenerate Scenarios.env_with_token Scenarios.cat
             (replies ([Scenarios.starting] ++ [Scenarios.succeeded_without_output]) ++ []) in
  terminal r = Some (Failed "Generation failed with status: succeeded")
  /\ videoUrl (ui r) = JStr "".
Proof.
  apply (succeeded_without_output_fails Scenarios.env_with_token Scenarios.cat
           [Scenarios.starting] Scenarios.succeeded_without_output []);
    [discriminate | reflexivity | reflexivity | reflexivity].
Defined.

(** C10.  When the last response has status [succeeded] and its output is
    the empty sequence, no error is raised: the run ends in [Succeeded] and
    the resolved media location is [undefined]. *)
Theorem empty_output_sequence_succeeds env u ps q rest :
  trim (inputText u) <> "" ->
  forallb nonterminal ps = true ->
  lookup "status" q = JStr "succeeded" ->
  lookup "output" q = JArr [] ->
  let r := handleGenerate env u (replies (ps ++ [q]) ++ rest) in
  terminal r = Some (Succeeded JUndefined)
  /\ error (ui r) = "".
Proof.
  intros Hprompt Hps Hst Hout r. subst r.
  rewrite (run_until env u Hprompt ps q rest Hps (succeeded_is_terminal q Hst)).
  assert (E : extract (JObj q) = Val JUndefined).
  { unfold extract, read. simpl. rewrite Hst. simpl. now rewrite Hout. }
  rewrite E. split; reflexivity.
Qed.

Lemma empty_output_sequence_succeeds_witness :
  let r := handleGenerate Scenarios.env_with_token Scenarios.cat
             (replies ([Scenarios.starting] ++ [Scenarios.succeeded_with_empty_output]) ++ []) in
  terminal r = Some (Succeeded JUndefined)
  /\ error (ui r) = "".
Proof.
  apply (empty_output_sequence_succeeds Scenarios.env_with_token Scenarios.cat
           [Scenarios.starting] Scenarios.succeeded_with_empty_output []);
    [discriminate | reflexivity | reflexivity | reflexivity].
Defined.

(** C6.  When the prompt is empty or consists of white space only, the call
    returns at once with the validation message displayed, and it makes no
    request and no wait, whatever the network would answer. *)
Theorem blank_prompt_rejected env u script :
  all_space (inputText u) = true ->
  handleGenerate env u script =
    {| ui := setError "Please enter a description for your video" u;
       trace := [];
       settled := true |}
  /\ requests (trace (handleGenerate env u script)) = []
  /\ terminal (handleGenerate env u script) =
       Some (Failed "Please enter a description for your video").
Proof.
  intros H.
  assert (E : handleGenerate env u script =
              {| ui := setError "Please enter a description for your video" u;
                 trace := [];
                 settled := true |}).
  { unfold handleGenerate. now rewrite (all_space_trim _ H). }
  rewrite E. repeat split.
Qed.

Lemma blank_prompt_rejected_witness :
  requests (trace (handleGenerate Scenarios.env_with_token (Scenarios.typed "  ")
                     (replies [Scenarios.starting; Scenarios.succeeded_with_video]))) = []
  /\ terminal (handleGenerate Scenarios.env_with_token (Scenarios.typed "") []) =
       Some (Failed "Please enter a description for your video").
Proof.
  split.
  - apply (blank_prompt_rejected Scenarios.env_with_token (Scenarios.typed "  ")).
    reflexivity.
  - apply (blank_prompt_rejected Scenarios.env_with_token (Scenarios.typed "")).
    reflexivity.
Defined.

(** ** The orchestrator: rejected responses *)

Lemma receive_rejected fallback r :
  ok r = false ->
  receive fallback (Resolved r) =
    match payload r with
    | NotJson m => Throw m
    | Json body =>
        match get_prop body "detail" with
        | None => Throw (type_error body "detail")
        | Some d => Throw (ToString (js_or d (JStr fallback)))
        end
    end.
Proof.
  intros H. unfold receive, settle, accept, json, read. simpl. rewrite H. simpl.
  destruct (payload r) as [body|m]; simpl; [|reflexivity].
  destruct (get_prop body "detail"); reflexivity.
Qed.

Lemma receive_rejected_throws fallback r :
  ok r = false -> exists m, receive fallback (Resolved r) = Throw m.
Proof.
  intros H. rewrite (receive_rejected _ _ H).
  destruct (payload r) as [body|m]; [|now eexists].
  destruct (get_prop body "detail"); now eexists.
Qed.

Lemma fallback_after_nonempty ps : fallback_after ps <> "".
Proof. destruct ps; discriminate. Qed.

(** C3, as stated, fails: a 500 response whose body is not JSON ends in
    [Failed] with the message of the error raised by reading the body,
    which is neither a detail field nor the generic fallback. *)
Lemma rejection_message_not_always_detail_or_fallback :
  ~ (forall env u r rest,
        trim (inputText u) <> "" ->
        ok r = false ->
        terminal (handleGenerate env u (Resolved r :: rest)) =
          Some (Failed (AsStated.rejection_message
                          "Failed to start video generation" r))).
Proof.
  intros H.
  specialize (H Scenarios.env_with_token Scenarios.cat Scenarios.plain_text_500 []).
  assert (Hp : trim (inputText Scenarios.cat) <> "") by discriminate.
  specialize (H Hp eq_refl). vm_compute in H. discriminate H.
Qed.

(** C3, amended.  A submission or poll response with a non-success status
    ends the run in [Failed] without any further request.  When the body of
    that response is a JSON value with a non-empty string as [detail], the
    message is that string; when the body is a JSON value other than null
    whose [detail] is absent (or falsy), the message is the generic
    fallback of the request; a submission answered by 402 with detail
    insufficient credit ends in [Failed] with that message. *)
Theorem rejected_response_fails :
  (forall env u ps r rest,
      trim (inputText u) <> "" ->
      forallb nonterminal ps = true ->
      ok r = false ->
      exists m,
        terminal (handleGenerate env u (replies ps ++ Resolved r :: rest)) =
          Some (Failed m)
        /\ trace (handleGenerate env u (replies ps ++ Resolved r :: rest)) =
             Fetch (submit_request env u) :: flat_map (poll_step env) ps)
  /\ (forall env u ps r rest body d,
        trim (inputText u) <> "" ->
        forallb nonterminal ps = true ->
        ok r = false ->
        payload r = Json body ->
        get_prop body "detail" = Some (JStr d) ->
        d <> "" ->
        terminal (handleGenerate env u (replies ps ++ Resolved r :: rest)) =
          Some (Failed d))
  /\ (forall env u ps r rest body d,
        trim (inputText u) <> "" ->
        forallb nonterminal ps = true ->
        ok r = false ->
        payload r = Json body ->
        get_prop body "detail" = Some d ->
        truthy d = false ->
        terminal (handleGenerate env u (replies ps ++ Resolved r :: rest)) =
          Some (Failed (fallback_after ps)))
  /\ (forall env u rest,
        trim (inputText u) <> "" ->
        terminal (handleGenerate env u (Resolved Scenarios.insufficient_credit :: rest)) =
          Some (Failed "insufficient credit")).
Proof.
  split; [|split; [|split]].
  - intros env u ps r rest Hp Hps Hr.
    destruct (receive_rejected_throws (fallback_after ps) r Hr) as [m Hm].
    rewrite (run_raise env u Hp ps (Resolved r) rest m Hps Hm).
    exists (catch_message m). split; [apply terminal_failure | reflexivity].
  - intros env u ps r rest body d Hp Hps Hr Hbody Hd Hne.
    assert (Hm : receive (fallback_after ps) (Resolved r) = Throw d).
    { rewrite (receive_rejected _ _ Hr), Hbody, Hd. unfold js_or. simpl.
      apply String.eqb_neq in Hne. now rewrite Hne. }
    rewrite (run_raise env u Hp ps (Resolved r) rest d Hps Hm).
    rewrite terminal_failure. unfold catch_message.
    apply String.eqb_neq in Hne. now rewrite Hne.
  - intros env u ps r rest body d Hp Hps Hr Hbody Hd Hfalsy.
    assert (Hm : receive (fallback_after ps) (Resolved r) = Throw (fallback_after ps)).
    { rewrite (receive_rejected _ _ Hr), Hbody, Hd. unfold js_or.
      now rewrite Hfalsy. }
    rewrite (run_raise env u Hp ps (Resolved r) rest _ Hps Hm).
    rewrite terminal_failure. unfold catch_message.
    pose proof (fallback_after_nonempty ps) as Hne.
    apply String.eqb_neq in Hne. now rewrite Hne.
  - intros env u rest Hp.
    assert (Hm : receive (fallback_after []) (Resolved Scenarios.insufficient_credit)
                 = Throw "insufficient credit") by reflexivity.
    rewrite (run_raise env u Hp [] _ rest _ eq_refl Hm : handleGenerate env u
               (Resolved Scenarios.insufficient_credit :: rest) = _).
    now rewrite terminal_failure.
Qed.

Lemma rejected_response_fails_witness :
  terminal (handleGenerate Scenarios.env_with_token Scenarios.cat
              (replies [] ++ [Resolved Scenarios.insufficient_credit])) =
    Some (Failed "insufficient credit")
  /\ terminal (handleGenerate Scenarios.env_with_token Scenarios.cat
                 (replies [Scenarios.starting]
                    ++ [reply 503 (JObj [("title", JStr "unavailable")])])) =
       Some (Failed "Failed to poll status")
  /\ (exists m,
        terminal (handleGenerate Scenarios.env_with_token Scenarios.cat
                    (replies [] ++ [Resolved Scenarios.plain_text_500])) =
          Some (Failed m)
        /\ trace (handleGenerate Scenarios.env_with_token Scenarios.cat
                    (replies [] ++ [Resolved Scenarios.plain_text_500])) =
             Fetch (submit_request Scenarios.env_with_token Scenarios.cat)
               :: flat_map (poll_step Scenarios.env_with_token) []).
Proof.
  destruct rejected_response_fails as (Hfail & Hdetail & Hfallback & _).
  split; [|split].
  - apply (Hdetail Scenarios.env_with_token Scenarios.cat [] Scenarios.insufficient_credit []
             (JObj [("detail", JStr "insufficient credit")]) "insufficient credit");
      [discriminate | reflexivity | reflexivity | reflexivity | reflexivity | discriminate].
  - apply (Hfallback Scenarios.env_with_token Scenarios.cat [Scenarios.starting]
             {| Net.status := 503; payload := Json (JObj [("title", JStr "unavailable")]) |}
             [] (JObj [("title", JStr "unavailable")]) JUndefined);
      [discriminate | reflexivity | reflexivity | reflexivity | reflexivity | reflexivity].
  - apply (Hfail Scenarios.env_with_token Scenarios.cat [] Scenarios.plain_text_500 []);
      [discriminate | reflexivity | reflexivity].
Defined.

(** ** Where credentials are attached *)

Lemma poll_loop_requests env script : forall pr u r,
  In r (requests (snd (fst (poll_loop env pr u script)))) ->
  header "Authorization" (headers r) = Some (bearer env).
Proof.
  assert (Hreq : forall pr req r,
             poll_request env pr = Val req -> req = r ->
             header "Authorization" (headers r) = Some (bearer env)).
  { intros pr req r Hpr <-. unfold poll_request in Hpr.
    destruct (read pr "id"); simpl in Hpr; [|discriminate].
    injection Hpr as <-. reflexivity. }
  induction script as [|f script IH]; intros pr u r.
  - rewrite poll_loop_nil.
    destruct (loop_cond pr) as [[|]|]; simpl; try tauto.
    destruct (poll_request env pr) as [req|] eqn:E; simpl; try tauto.
    intros [H|[]]. exact (Hreq pr req r E H).
  - rewrite poll_loop_cons.
    destruct (loop_cond pr) as [[|]|]; simpl; try tauto.
    destruct (poll_request env pr) as [req|] eqn:E; simpl; try tauto.
    destruct (receive "Failed to poll status" f) as [[p t]|].
    + specialize (IH p (setStatus t u) r).
      destruct (poll_loop env p (setStatus t u) script) as [[u' tr] s].
      simpl in *. intros [H|H]; [exact (Hreq pr req r E H) | exact (IH H)].
    + simpl. intros [H|[]]. exact (Hreq pr req r E H).
Qed.

(** C1, as stated, fails: the submission request of the client carries an
    [Authorization] header made from the client's own Replicate token. *)
Lemma client_requests_carry_a_credential :
  ~ (forall env u script r,
        In r (requests (trace (handleGenerate env u script))) ->
        header "Authorization" (headers r) = None).
Proof.
  intros H.
  specialize (H Scenarios.env_with_token Scenarios.cat []
                (submit_request Scenarios.env_with_token Scenarios.cat)).
  simpl in H. discriminate (H (or_introl eq_refl)).
Qed.

(** C1, amended.  The proxy attaches its own configured credential to the
    upstream request, as [Token] followed by the credential, and forwards
    no header of the incoming request; its reply is made of the upstream
    answer alone, so two credentials that get the same answer get the same
    reply.  Every request of the client, the submission and the polls,
    carries an [Authorization] header made of [Bearer] and the token of the
    client's own build-time environment. *)
Theorem credential_attachment :
  (forall env u script r,
      In r (requests (trace (handleGenerate env u script))) ->
      header "Authorization" (headers r) = Some (bearer env))
  /\ (forall c upstream req out,
        In out (snd (Proxy.handler c upstream req)) ->
        exists token,
          Proxy.apiToken c = Some token
          /\ token <> ""
          /\ headers out = [ ("Content-Type", "application/json");
                             ("Authorization", "Token " ++ token) ])
  /\ (forall c c' upstream req t t',
        Proxy.apiToken c = Some t -> t <> "" ->
        Proxy.apiToken c' = Some t' -> t' <> "" ->
        upstream (Proxy.upstream_request t req) =
          upstream (Proxy.upstream_request t' req) ->
        fst (Proxy.handler c upstream req) = fst (Proxy.handler c' upstream req)).
Proof.
  split; [|split].
  - intros env u script r. unfold handleGenerate.
    destruct (negb (truthy (JStr (trim (inputText u))))); [intros []|].
    fold (started u). destruct script as [|f script].
    + simpl. intros [<-|[]]. reflexivity.
    + rewrite try_body_cons.
      destruct (receive "Failed to start video generation" f) as [[p t]|].
      * pose proof (poll_loop_requests env script p (setStatus t (started u)) r) as Hl.
        destruct (poll_loop env p (setStatus t (started u)) script) as [[u' tr] s].
        simpl in Hl.
        assert (Hin : In r (requests (Fetch (submit_request env (started u)) :: tr)) ->
                      header "Authorization" (headers r) = Some (bearer env))
          by (simpl; intros [<-|H]; [reflexivity | exact (Hl H)]).
        destruct s as [pr| |]; [destruct (extract pr)| |]; exact Hin.
      * simpl. intros [<-|[]]. reflexivity.
  - intros c upstream req out. unfold Proxy.handler.
    destruct (Proxy.apiToken c) as [token|]; [|intros []].
    destruct (String.eqb_spec token "") as [_|Hne]; [intros []|].
    intros Hin. exists token. split; [reflexivity|]. split; [exact Hne|].
    assert (out = Proxy.upstream_request token req) as ->.
    { destruct (upstream (Proxy.upstream_request token req)) as [response|m];
        [destruct (payload response)|]; simpl in Hin;
        destruct Hin as [<-|[]]; reflexivity. }
    reflexivity.
  - intros c c' upstream req t t' Ht Hne Ht' Hne' Hsame. unfold Proxy.handler.
    rewrite Ht, Ht'. apply String.eqb_neq in Hne, Hne'. rewrite Hne, Hne', Hsame.
    destruct (upstream (Proxy.upstream_request t' req)) as [response|m];
      [destruct (payload response)|]; reflexivity.
Qed.

Lemma credential_attachment_witness :
  header "Authorization"
         (headers (submit_request Scenarios.env_with_token Scenarios.cat)) =
    Some "Bearer r8_client_token"
  /\ fst (Proxy.handler (Proxy.mkConfig (Some "r8_server_a") None)
            (fun _ => reply 200 (JObj Scenarios.starting))
            (Proxy.mkIncoming "GET" "/api/replicate/predictions/abc" [] JUndefined)) =
     fst (Proxy.handler (Proxy.mkConfig None (Some "r8_server_b"))
            (fun _ => reply 200 (JObj Scenarios.starting))
            (Proxy.mkIncoming "GET" "/api/replicate/predictions/abc" [] JUndefined)).
Proof.
  destruct credential_attachment as (Hclient & _ & Hreply).
  split.
  - apply (Hclient Scenarios.env_with_token Scenarios.cat []).
    simpl. left. reflexivity.
  - apply (Hreply (Proxy.mkConfig (Some "r8_server_a") None)
                  (Proxy.mkConfig None (Some "r8_server_b"))
                  _ _ "r8_server_a" "r8_server_b");
      [reflexivity | discriminate | reflexivity | discriminate | reflexivity].
Defined.

(** ** The proxy gateway *)

(** C7.  Without a configured credential (neither in the environment nor in
    the functions configuration) the proxy answers every request with
    status 500 and the fixed text of the configuration error, and calls
    upstream zero times; the answer can be told from anything relayed for
    upstream, because only the configuration error is sent as text. *)
Theorem missing_credential_is_configuration_error :
  (forall c upstream req,
      Proxy.truthy_str (Proxy.env_token c) = false ->
      Proxy.truthy_str (Proxy.config_token c) = false ->
      Proxy.handler c upstream req =
        ({| Proxy.code := 500;
            Proxy.sent := Proxy.SendText "Server configuration error: Missing API Token" |},
         []))
  /\ (forall c upstream req text,
        Proxy.sent (fst (Proxy.handler c upstream req)) = Proxy.SendText text ->
        Proxy.truthy_str (Proxy.env_token c) = false
        /\ Proxy.truthy_str (Proxy.config_token c) = false
        /\ snd (Proxy.handler c upstream req) = []).
Proof.
  split.
  - intros c upstream req He Hc. unfold Proxy.handler, Proxy.apiToken. rewrite He.
    destruct (Proxy.config_token c) as [t|]; [|reflexivity].
    simpl in Hc. apply negb_false_iff in Hc. now rewrite Hc.
  - intros c upstream req text. unfold Proxy.handler, Proxy.apiToken.
    destruct (Proxy.truthy_str (Proxy.env_token c)) eqn:He.
    + destruct (Proxy.env_token c) as [t|]; [|discriminate He].
      simpl in He. apply negb_true_iff in He. rewrite He.
      destruct (upstream (Proxy.upstream_request t req)) as [response|m];
        [destruct (payload response)|]; discriminate.
    + destruct (Proxy.config_token c) as [t|]; [|now intros _].
      simpl. destruct (t =? "")%string; [now intros _|].
      destruct (upstream (Proxy.upstream_request t req)) as [response|m];
        [destruct (payload response)|]; discriminate.
Qed.

Lemma missing_credential_is_configuration_error_witness :
  Proxy.handler (Proxy.mkConfig None (Some ""))
    (fun _ => Resolved {| Net.status := 200; payload := Json JNull |})
    (Proxy.mkIncoming "POST" "/api/replicate/predictions" [] (JObj [])) =
    ({| Proxy.code := 500;
        Proxy.sent := Proxy.SendText "Server configuration error: Missing API Token" |},
     []).
Proof.
  destruct missing_credential_is_configuration_error as [H _].
  apply H; reflexivity.
Defined.

Lemma strip_general (p rest : string) :
  (if prefix p (p ++ rest)
   then substring (String.length p) (String.length (p ++ rest) - String.length p) (p ++ rest)
   else p ++ rest) = rest.
Proof.
  rewrite prefix_app, length_app, substring_skip.
  replace (String.length p + String.length rest - String.length p)%nat
    with (String.length rest) by lia.
  apply substring_all.
Qed.

Lemma strip_app (rest : string) : Proxy.strip (Proxy.prefix_path ++ rest) = rest.
Proof. apply strip_general. Qed.

(** C8, as stated, fails: for the path that is the prefix itself nothing is
    stripped, and the upstream URL ends in the whole path. *)
Lemma bare_prefix_is_not_stripped :
  ~ (forall rest,
        Proxy.targetUrl (Proxy.prefix_path ++ rest) =
          "https://api.replicate.com/v1" ++ rest).
Proof.
  intros H. specialize (H ""). discriminate H.
Qed.

(** C8, amended.  For every incoming path that begins with /api/replicate
    and goes on after it, the upstream URL is https://api.replicate.com/v1
    followed by the rest of the path, and this is the URL of the call made
    upstream; the path that is exactly the prefix is forwarded whole. *)
Theorem target_url_strips_prefix :
  (forall rest,
      rest <> "" ->
      Proxy.targetUrl (Proxy.prefix_path ++ rest) =
        "https://api.replicate.com/v1" ++ rest)
  /\ (forall c upstream req rest out,
        rest <> "" ->
        Proxy.req_path req = Proxy.prefix_path ++ rest ->
        In out (snd (Proxy.handler c upstream req)) ->
        url out = "https://api.replicate.com/v1" ++ rest)
  /\ Proxy.targetUrl Proxy.prefix_path =
       "https://api.replicate.com/v1" ++ Proxy.prefix_path.
Proof.
  assert (Hurl : forall rest, rest <> "" ->
                   Proxy.targetUrl (Proxy.prefix_path ++ rest) =
                     "https://api.replicate.com/v1" ++ rest).
  { intros rest Hne. unfold Proxy.targetUrl, Proxy.targetPath.
    rewrite strip_app. apply String.eqb_neq in Hne. now rewrite Hne. }
  split; [exact Hurl | split; [|reflexivity]].
  intros c upstream req rest out Hne Hpath. unfold Proxy.handler.
  destruct (Proxy.apiToken c) as [token|]; [|intros []].
  destruct (token =? "")%string; [intros []|].
  intros Hin.
  assert (out = Proxy.upstream_request token req) as ->.
  { destruct (upstream (Proxy.upstream_request token req)) as [response|m];
      [destruct (payload response)|]; simpl in Hin;
      destruct Hin as [<-|[]]; reflexivity. }
  unfold Proxy.upstream_request. cbn [url]. rewrite Hpath. now apply Hurl.
Qed.

Lemma target_url_strips_prefix_witness :
  Proxy.targetUrl (Proxy.prefix_path ++ "/predictions/abc") =
    "https://api.replicate.com/v1" ++ "/predictions/abc".
Proof.
  destruct target_url_strips_prefix as [H _].
  apply H. discriminate.
Defined.

(** ** The payload builders *)

(** C9.  A payload holds the property of a tuning option only when the
    builder of that backend honours the option.  The ltx-video payload has
    exactly the properties version, input, prompt, aspect_ratio,
    negative_prompt and guidance_scale, so it never holds the
    prompt-enhancement flag under any name, and it does not depend on the
    flag; the wan-2.5 payload holds the flag as enable_prompt_expansion,
    inside input. *)
Theorem payload_fields_per_backend :
  (forall m prompt o opt,
      In opt tuning_options ->
      In (tuning_key opt) (all_keys (payloadBuilder (MODELS m) prompt o)) ->
      In opt (honoured m))
  /\ (forall prompt o,
        all_keys (payloadBuilder (MODELS LtxVideo) prompt o) =
          ["version"; "input"; "prompt"; "aspect_ratio"; "negative_prompt";
           "guidance_scale"])
  /\ (forall prompt o,
        ~ In "enable_prompt_expansion"
             (all_keys (payloadBuilder (MODELS LtxVideo) prompt o))
        /\ ~ In "enhancePrompt"
                (all_keys (payloadBuilder (MODELS LtxVideo) prompt o)))
  /\ (forall prompt v g e e',
        payloadBuilder (MODELS LtxVideo) prompt (mkOptions v g e) =
        payloadBuilder (MODELS LtxVideo) prompt (mkOptions v g e'))
  /\ (forall prompt o,
        all_keys (payloadBuilder (MODELS Wan25) prompt o) =
          ["input"; "prompt"; "aspect_ratio"; "negative_prompt";
           "guidance_scale"; "enable_prompt_expansion"])
  /\ (forall prompt o input,
        get_prop (payloadBuilder (MODELS Wan25) prompt o) "input" = Some input ->
        get_prop input "enable_prompt_expansion" =
          Some (JBool (Registry.enhancePrompt o))).
Proof.
  assert (Hltx : forall prompt o,
             all_keys (payloadBuilder (MODELS LtxVideo) prompt o) =
               ["version"; "input"; "prompt"; "aspect_ratio"; "negative_prompt";
                "guidance_scale"]).
  { intros prompt o. simpl. unfold opt_str.
    destruct (Registry.version o); reflexivity. }
  repeat split.
  - intros m prompt o opt Hopt Hin. destruct m.
    + rewrite Hltx in Hin.
      destruct Hopt as [<-|[<-|[]]]; [simpl; tauto|].
      simpl in Hin. repeat (destruct Hin as [Hin|Hin]; [discriminate Hin|]).
      destruct Hin.
    + destruct Hopt as [<-|[<-|[]]]; simpl; tauto.
  - exact Hltx.
  - rewrite Hltx. simpl. intros H.
    repeat (destruct H as [H|H]; [discriminate H|]). exact H.
  - rewrite Hltx. simpl. intros H.
    repeat (destruct H as [H|H]; [discriminate H|]). exact H.
  - intros prompt o input H. simpl in H. injection H as <-. reflexivity.
Qed.

Lemma payload_fields_per_backend_witness :
  In "guidanceScale" (honoured LtxVideo)
  /\ get_prop (JObj [ ("prompt", JStr "a cat");
                      ("aspect_ratio", JStr "16:9");
                      ("negative_prompt", JStr negative_prompt);
                      ("guidance_scale", JNum (mkNum 50 1));
                      ("enable_prompt_expansion", JBool false) ])
              "enable_prompt_expansion" = Some (JBool false).
Proof.
  destruct payload_fields_per_backend as (Hhon & _ & _ & _ & _ & Hwan).
  split.
  - apply (Hhon LtxVideo "a cat" (mkOptions None (mkNum 30 1) true) "guidanceScale").
    + simpl. left. reflexivity.
    + simpl. right. right. right. right. right. left. reflexivity.
  - apply (Hwan "a cat" (mkOptions None (mkNum 50 1) false)). reflexivity.
Defined.

(** * Further properties of the code *)

(** ** The shape of every run *)

Lemma receive_line_nonempty fallback f p t :
  receive fallback f = Val (p, t) -> t <> "".
Proof.
  unfold receive. destruct (settle f) as [r|]; simpl; [|discriminate].
  destruct (accept fallback r) as [v|]; simpl; [|discriminate].
  unfold status_text. destruct (read v "status") as [x|]; simpl; [|discriminate].
  intros H. injection H as _ <-. discriminate.
Qed.

Lemma setStatus_self u : u = setStatus (status u) u.
Proof. now destruct u. Qed.

Lemma poll_loop_shape env script : forall pr u,
  status u <> "" ->
  exists t, t <> "" /\ fst (fst (poll_loop env pr u script)) = setStatus t u.
Proof.
  assert (Hself : forall u, status u <> "" ->
                    exists t, t <> "" /\ u = setStatus t u)
    by (intros u H; exists (status u); split; [exact H | apply setStatus_self]).
  induction script as [|f script IH]; intros pr u Hu.
  - rewrite poll_loop_nil.
    destruct (loop_cond pr) as [[|]|]; [|now apply Hself..].
    destruct (poll_request env pr); now apply Hself.
  - rewrite poll_loop_cons.
    destruct (loop_cond pr) as [[|]|]; [|now apply Hself..].
    destruct (poll_request env pr); [|now apply Hself].
    destruct (receive "Failed to poll status" f) as [[p t]|] eqn:E; [|now apply Hself].
    pose proof (receive_line_nonempty _ _ _ _ E) as Ht.
    destruct (IH p (setStatus t u) Ht) as (t' & Ht' & Heq).
    destruct (poll_loop env p (setStatus t u) script) as [[u' tr] s].
    simpl in *. exists t'. split; [exact Ht' | now rewrite Heq].
Qed.

Lemma handleGenerate_shape env u script :
  trim (inputText u) <> "" -> Shape u (handleGenerate env u script).
Proof.
  intros Hp. unfold handleGenerate. rewrite (has_prompt _ Hp). fold (started u).
  assert (Hs : status (started u) <> "") by discriminate.
  destruct script as [|f script].
  - apply (Waiting _ _ "Starting generation..."); [reflexivity | discriminate |].
    simpl. now destruct u.
  - rewrite try_body_cons.
    destruct (receive "Failed to start video generation" f) as [[p t]|m] eqn:E.
    + pose proof (receive_line_nonempty _ _ _ _ E) as Ht.
      destruct (poll_loop_shape env script p (setStatus t (started u)) Ht)
        as (t' & Ht' & Heq).
      destruct (poll_loop env p (setStatus t (started u)) script) as [[u' tr] st].
      simpl in Heq. subst u'.
      destruct st as [pr|m|].
      * destruct (extract pr) as [url|m].
        -- now apply (Resolved_with _ _ url).
        -- now apply (Failed_with _ _ m).
      * now apply (Failed_with _ _ m).
      * now apply (Waiting _ _ t').
    + now apply (Failed_with _ _ m).
Qed.

Lemma nonblank_trim s : all_space s = false -> trim s <> "".
Proof.
  intros H. unfold trim.
  assert (Hstart : exists c s', trim_start s = String c s' /\ is_space c = false).
  { induction s as [|c s IH]; [discriminate|]. simpl in *.
    destruct (is_space c) eqn:E; [apply IH, H | now exists c, s]. }
  destruct Hstart as (c & s' & -> & Hc). simpl.
  destruct (trim_end s'); [now rewrite Hc | discriminate].
Qed.

Lemma blank_or_not s : all_space s = true \/ trim s <> "".
Proof.
  destruct (all_space s) eqn:E; [now left | right; now apply nonblank_trim].
Qed.

(** ** The orchestrator: invariants of [handleGenerate] *)

(** X1.  [handleGenerate] never changes the selected model, the prompt, the
    guidance scale or the prompt-enhancement flag, whatever the responses. *)
Theorem handleGenerate_keeps_inputs env u script :
  let r := handleGenerate env u script in
  selectedModelId (ui r) = selectedModelId u
  /\ inputText (ui r) = inputText u
  /\ guidanceScale (ui r) = guidanceScale u
  /\ enhancePrompt (ui r) = enhancePrompt u.
Proof.
  intros r. subst r. destruct (blank_or_not (inputText u)) as [Hb|Hp].
  - unfold handleGenerate. rewrite (all_space_trim _ Hb). repeat split.
  - destruct (handleGenerate_shape env u script Hp) as [t _ _ ->|url _ ->|m _ ->];
      repeat split.
Qed.

(** X2.  While a call is still waiting for a response the component is in
    the loading state with a status line, no error and no media location,
    and the last thing the call did was to issue a request. *)
Theorem waiting_state env u script :
  settled (handleGenerate env u script) = false ->
  let r := handleGenerate env u script in
  loading (ui r) = true
  /\ error (ui r) = ""
  /\ videoUrl (ui r) = JStr ""
  /\ status (ui r) <> ""
  /\ exists tr req, trace r = (tr ++ [Fetch req])%list.
Proof.
  intros Hw r. subst r.
  destruct (blank_or_not (inputText u)) as [Hb|Hp].
  - unfold handleGenerate in Hw. rewrite (all_space_trim _ Hb) in Hw. discriminate Hw.
  - assert (Hlast : exists tr req,
               trace (handleGenerate env u script) = (tr ++ [Fetch req])%list).
    { revert Hw. unfold handleGenerate. rewrite (has_prompt _ Hp). fold (started u).
      destruct script as [|f script].
      - intros _. now exists [], (submit_request env (started u)).
      - rewrite try_body_cons.
        destruct (receive "Failed to start video generation" f) as [[p t]|m];
          [|discriminate].
        generalize (setStatus t (started u)). generalize p.
        assert (Hloop : forall script pr u0,
                   snd (poll_loop env pr u0 script) = Awaiting ->
                   exists tr req,
                     snd (fst (poll_loop env pr u0 script)) = (tr ++ [Fetch req])%list).
        { clear. induction script as [|f script IH]; intros pr u0.
          - rewrite poll_loop_nil.
            destruct (loop_cond pr) as [[|]|]; try discriminate.
            destruct (poll_request env pr) as [req|]; [|discriminate].
            intros _. now exists [Sleep poll_interval], req.
          - rewrite poll_loop_cons.
            destruct (loop_cond pr) as [[|]|]; try discriminate.
            destruct (poll_request env pr) as [req|]; [|discriminate].
            destruct (receive "Failed to poll status" f) as [[p t]|]; [|discriminate].
            specialize (IH p (setStatus t u0)).
            destruct (poll_loop env p (setStatus t u0) script) as [[u' tr] s].
            simpl in *. intros Hs. destruct (IH Hs) as (tr' & req' & ->).
            now exists (Sleep poll_interval :: Fetch req :: tr'), req'. }
        intros p0 u0. specialize (Hloop script p0 u0).
        destruct (poll_loop env p0 u0 script) as [[u' tr] s]. simpl in Hloop.
        destruct s as [pr|m|]; [destruct (extract pr)| |]; try discriminate.
        intros _. destruct (Hloop eq_refl) as (tr' & req' & ->).
        now exists (Fetch (submit_request env (started u)) :: tr'), req'. }
    destruct (handleGenerate_shape env u script Hp) as [t _ Ht ->|url Hs _|m Hs _];
      [|congruence..].
    repeat split; [exact Ht | exact Hlast].
Qed.

Lemma waiting_state_witness :
  let r := handleGenerate Scenarios.env_with_token Scenarios.cat
             (replies [Scenarios.starting; Scenarios.processing]) in
  loading (ui r) = true
  /\ error (ui r) = ""
  /\ videoUrl (ui r) = JStr ""
  /\ status (ui r) <> ""
  /\ exists tr req, trace r = (tr ++ [Fetch req])%list.
Proof.
  apply (waiting_state Scenarios.env_with_token Scenarios.cat
           (replies [Scenarios.starting; Scenarios.processing])).
  reflexivity.
Defined.

(** X3.  A call with a prompt that has returned leaves the loading flag off
    and the status line empty, and it leaves either no error or no media
    location: a failure discards the media location of an earlier job. *)
Theorem returned_state env u script :
  trim (inputText u) <> "" ->
  settled (handleGenerate env u script) = true ->
  let r := handleGenerate env u script in
  loading (ui r) = false
  /\ status (ui r) = ""
  /\ (error (ui r) = "" \/ (error (ui r) <> "" /\ videoUrl (ui r) = JStr "")).
Proof.
  intros Hp Hs r. subst r.
  destruct (handleGenerate_shape env u script Hp) as [t Hw _ _|url _ ->|m _ ->];
    [congruence | |].
  - repeat split. now left.
  - repeat split. right. split; [|reflexivity]. simpl.
    apply String.eqb_neq. apply catch_message_nonempty.
Qed.

Lemma returned_state_witness :
  let r := handleGenerate Scenarios.env_with_token
             (setVideoUrl (JStr "https://cdn/old.mp4") Scenarios.cat)
             [Resolved Scenarios.insufficient_credit] in
  loading (ui r) = false
  /\ status (ui r) = ""
  /\ (error (ui r) = "" \/ (error (ui r) <> "" /\ videoUrl (ui r) = JStr "")).
Proof.
  apply (returned_state Scenarios.env_with_token
           (setVideoUrl (JStr "https://cdn/old.mp4") Scenarios.cat)
           [Resolved Scenarios.insufficient_credit]);
    [discriminate | reflexivity].
Defined.

(** ** The orchestrator: other outcomes *)

(** X4.  When the last response has status [failed] or [canceled], the run
    ends in [Failed] with a message that names the status, whether or not
    the response carries an output, and no media location is set. *)
Theorem failed_or_canceled_status_fails env u ps q rest s :
  trim (inputText u) <> "" ->
  forallb nonterminal ps = true ->
  lookup "status" q = JStr s ->
  s = "failed" \/ s = "canceled" ->
  let r := handleGenerate env u (replies (ps ++ [q]) ++ rest) in
  terminal r = Some (Failed ("Generation failed with status: " ++ s))
  /\ videoUrl (ui r) = JStr "".
Proof.
  intros Hp Hps Hst Hs r. subst r.
  assert (Hq : nonterminal q = false)
    by (unfold nonterminal; rewrite Hst; destruct Hs as [->| ->]; reflexivity).
  rewrite (run_until env u Hp ps q rest Hps Hq).
  assert (E : extract (JObj q) = Throw ("Generation failed with status: " ++ s)).
  { unfold extract, read. simpl. rewrite Hst. destruct Hs as [->| ->]; reflexivity. }
  rewrite E. split; [|reflexivity].
  rewrite terminal_failure. destruct Hs as [->| ->]; reflexivity.
Qed.

Lemma failed_or_canceled_status_fails_witness :
  let r := handleGenerate Scenarios.env_with_token Scenarios.cat
             (replies ([Scenarios.starting]
                         ++ [[("id", JStr "abc"); ("status", JStr "canceled");
                              ("output", JArr [JStr "https://cdn/partial.mp4"])]])
                ++ []) in
  terminal r = Some (Failed ("Generation failed with status: " ++ "canceled"))
  /\ videoUrl (ui r) = JStr "".
Proof.
  apply (failed_or_canceled_status_fails Scenarios.env_with_token Scenarios.cat
           [Scenarios.starting]);
    [discriminate | reflexivity | reflexivity | right; reflexivity].
Defined.

(** X5.  When a fetch rejects (a transport error), at the submission or at
    a poll, the run ends in [Failed] with the message of the rejection, or
    with a generic message when that message is empty, and no further
    request is made. *)
Theorem transport_error_fails env u ps m rest :
  trim (inputText u) <> "" ->
  forallb nonterminal ps = true ->
  let r := handleGenerate env u (replies ps ++ Rejected m :: rest) in
  terminal r =
    Some (Failed (if (m =? "")%string
                  then "An error occurred while generating the video" else m))
  /\ trace r = Fetch (submit_request env u) :: flat_map (poll_step env) ps.
Proof.
  intros Hp Hps r. subst r.
  rewrite (run_raise env u Hp ps (Rejected m) rest m Hps eq_refl).
  split; [apply terminal_failure | reflexivity].
Qed.

Lemma transport_error_fails_witness :
  let r := handleGenerate Scenarios.env_with_token Scenarios.cat
             (replies [Scenarios.starting] ++ Rejected "" :: replies [Scenarios.processing]) in
  terminal r =
    Some (Failed (if ("" =? "")%string
                  then "An error occurred while generating the video" else ""))
  /\ trace r = Fetch (submit_request Scenarios.env_with_token Scenarios.cat)
                 :: flat_map (poll_step Scenarios.env_with_token) [Scenarios.starting].
Proof.
  apply (transport_error_fails Scenarios.env_with_token Scenarios.cat
           [Scenarios.starting] "" (replies [Scenarios.processing]));
    [discriminate | reflexivity].
Defined.

Lemma requests_poll_steps env ps :
  requests (flat_map (poll_step env) ps) = map (poll_of env) ps.
Proof.
  induction ps as [|p ps IH]; simpl; [reflexivity | now rewrite IH].
Qed.

(** X6.  A run whose responses are successful and reach a terminal status
    issues exactly one submission and then one poll for each non-terminal
    prediction received, each poll for the identifier of the prediction
    received last; responses beyond the terminal one are never asked for. *)
Theorem requests_until_terminal env u ps q rest :
  trim (inputText u) <> "" ->
  forallb nonterminal ps = true ->
  nonterminal q = false ->
  let r := handleGenerate env u (replies (ps ++ [q]) ++ rest) in
  requests (trace r) = submit_request env u :: map (poll_of env) ps
  /\ List.length (requests (trace r)) = List.length (ps ++ [q])
  /\ settled r = true.
Proof.
  intros Hp Hps Hq r. subst r.
  rewrite (run_until env u Hp ps q rest Hps Hq). cbn [trace settled requests].
  rewrite requests_poll_steps. split; [reflexivity | split; [|reflexivity]].
  cbn [List.length]. rewrite length_map, List.length_app. simpl. lia.
Qed.

Lemma requests_until_terminal_witness :
  let r := handleGenerate Scenarios.env_with_token Scenarios.cat
             (replies ([Scenarios.starting;
                        [("id", JStr "xyz"); ("status", JStr "processing")]]
                         ++ [Scenarios.succeeded_with_video])
                ++ replies [Scenarios.processing]) in
  requests (trace r) =
    submit_request Scenarios.env_with_token Scenarios.cat
      :: map (poll_of Scenarios.env_with_token)
           [Scenarios.starting; [("id", JStr "xyz"); ("status", JStr "processing")]]
  /\ List.length (requests (trace r)) =
       List.length ([Scenarios.starting;
                     [("id", JStr "xyz"); ("status", JStr "processing")]]
                      ++ [Scenarios.succeeded_with_video])
  /\ settled r = true.
Proof.
  apply (requests_until_terminal Scenarios.env_with_token Scenarios.cat);
    [discriminate | reflexivity | reflexivity].
Defined.

Lemma trace_starts_with_submission env u script :
  trim (inputText u) <> "" ->
  exists tr, trace (handleGenerate env u script) = Fetch (submit_request env u) :: tr.
Proof.
  intros Hp. unfold handleGenerate. rewrite (has_prompt _ Hp). fold (started u).
  destruct script as [|f script]; [now eexists|].
  rewrite try_body_cons.
  destruct (receive "Failed to start video generation" f) as [[p t]|m]; [|now eexists].
  destruct (poll_loop env p (setStatus t (started u)) script) as [[u' tr] s].
  destruct s as [pr| |]; [destruct (extract pr)| |]; now eexists.
Qed.

(** X7.  A prompt with at least one character that is not white space is
    always submitted: the first effect is a POST to the endpoint of the
    selected model, whose body carries the prompt as typed (white space
    around it included) and the guidance scale of the component. *)
Theorem nonblank_prompt_is_submitted env u script :
  all_space (inputText u) = false ->
  exists tr pl input,
    trace (handleGenerate env u script) = Fetch (submit_request env u) :: tr
    /\ method (submit_request env u) = "POST"
    /\ url (submit_request env u) = endpoint (MODELS (selectedModelId u))
    /\ body (submit_request env u) = Some pl
    /\ get_prop pl "input" = Some input
    /\ get_prop input "prompt" = Some (JStr (inputText u))
    /\ get_prop input "guidance_scale" = Some (JNum (guidanceScale u)).
Proof.
  intros H. destruct (trace_starts_with_submission env u script (nonblank_trim _ H))
    as [tr Htr].
  exists tr. destruct (selectedModelId u) eqn:E.
  - eexists. eexists. split; [exact Htr|].
    unfold submit_request. rewrite E. simpl. repeat split.
  - eexists. eexists. split; [exact Htr|].
    unfold submit_request. rewrite E. simpl. repeat split.
Qed.

Lemma nonblank_prompt_is_submitted_witness :
  exists tr pl input,
    trace (handleGenerate Scenarios.env_with_token (Scenarios.typed "  a cat ") []) =
      Fetch (submit_request Scenarios.env_with_token (Scenarios.typed "  a cat ")) :: tr
    /\ method (submit_request Scenarios.env_with_token (Scenarios.typed "  a cat ")) = "POST"
    /\ url (submit_request Scenarios.env_with_token (Scenarios.typed "  a cat ")) =
         endpoint (MODELS (selectedModelId (Scenarios.typed "  a cat ")))
    /\ body (submit_request Scenarios.env_with_token (Scenarios.typed "  a cat ")) = Some pl
    /\ get_prop pl "input" = Some input
    /\ get_prop input "prompt" = Some (JStr (inputText (Scenarios.typed "  a cat ")))
    /\ get_prop input "guidance_scale" =
         Some (JNum (guidanceScale (Scenarios.typed "  a cat "))).
Proof.
  apply (nonblank_prompt_is_submitted Scenarios.env_with_token (Scenarios.typed "  a cat ") []).
  reflexivity.
Defined.

(** ** State that has no influence on a run *)

Section Commute.

Variables (env : ClientEnv) (f : Ui -> Ui).
Hypothesis f_status : forall t u, f (setStatus t u) = setStatus t (f u).
Hypothesis f_video : forall v u, f (setVideoUrl v u) = setVideoUrl v (f u).
Hypothesis f_error : forall m u, f (setError m u) = setError m (f u).
Hypothesis f_loading : forall b u, f (setLoading b u) = setLoading b (f u).
Hypothesis f_input : forall u, inputText (f u) = inputText u.

Lemma poll_loop_commute script : forall pr u,
  poll_loop env pr (f u) script =
    let '(u', tr, s) := poll_loop env pr u script in (f u', tr, s).
Proof.
  induction script as [|x script IH]; intros pr u.
  - rewrite !poll_loop_nil.
    destruct (loop_cond pr) as [[|]|]; try reflexivity.
    destruct (poll_request env pr); reflexivity.
  - rewrite !poll_loop_cons.
    destruct (loop_cond pr) as [[|]|]; try reflexivity.
    destruct (poll_request env pr); [|reflexivity].
    destruct (receive "Failed to poll status" x) as [[p t]|]; [|reflexivity].
    rewrite <- f_status, IH.
    destruct (poll_loop env p (setStatus t u) script) as [[u' tr] s]. reflexivity.
Qed.

Lemma handleGenerate_commute u script :
  submit_request env (f u) = submit_request env u ->
  handleGenerate env (f u) script =
    {| ui := f (ui (handleGenerate env u script));
       trace := trace (handleGenerate env u script);
       settled := settled (handleGenerate env u script) |}.
Proof.
  intros Hreq. unfold handleGenerate. rewrite f_input.
  destruct (negb (truthy (JStr (trim (inputText u))))).
  - simpl. now rewrite f_error.
  - fold (started (f u)). fold (started u).
    assert (Hstart : started (f u) = f (started u))
      by (unfold started; now rewrite f_status, f_video, f_error, f_loading).
    rewrite Hstart.
    assert (Hreq' : submit_request env (f (started u)) = submit_request env (started u))
      by (rewrite <- Hstart; exact Hreq).
    destruct script as [|x script].
    + simpl. now rewrite Hreq'.
    + rewrite !try_body_cons, Hreq'.
      destruct (receive "Failed to start video generation" x) as [[p t]|].
      * rewrite <- f_status, poll_loop_commute.
        destruct (poll_loop env p (setStatus t (started u)) script) as [[u' tr] s].
        destruct s as [pr| |]; [destruct (extract pr)| |];
          unfold finally; cbn [ui trace settled];
          now rewrite ?f_status, ?f_loading, ?f_error, ?f_video.
      * unfold finally; cbn [ui trace settled].
        now rewrite ?f_status, ?f_loading, ?f_error, ?f_video.
Qed.

End Commute.

(** X8.  With ltx-video selected the prompt-enhancement flag has no
    influence on a run: the requests, the waits and the outcome are the
    same whatever the flag is set to. *)
Theorem ltx_run_ignores_enhance_flag env u b script :
  selectedModelId u = LtxVideo ->
  let r := handleGenerate env u script in
  let r' := handleGenerate env (setEnhancePrompt b u) script in
  trace r' = trace r /\ settled r' = settled r /\ terminal r' = terminal r.
Proof.
  intros Hm r r'. subst r r'.
  rewrite (handleGenerate_commute env (setEnhancePrompt b)); try reflexivity.
  - repeat split.
  - unfold submit_request. simpl. now rewrite Hm.
Qed.

Lemma ltx_run_ignores_enhance_flag_witness :
  let r := handleGenerate Scenarios.env_with_token Scenarios.cat
             (replies [Scenarios.starting; Scenarios.succeeded_with_video]) in
  let r' := handleGenerate Scenarios.env_with_token
              (setEnhancePrompt false Scenarios.cat)
              (replies [Scenarios.starting; Scenarios.succeeded_with_video]) in
  trace r' = trace r /\ settled r' = settled r /\ terminal r' = terminal r.
Proof.
  apply (ltx_run_ignores_enhance_flag Scenarios.env_with_token Scenarios.cat false).
  reflexivity.
Defined.

(** X9.  After [handleModelChange] the next submission goes to the endpoint
    of the new model with the default guidance scale of that model, in
    place of whatever guidance was set before; the prompt, the
    prompt-enhancement flag, the media location and the error are kept. *)
Theorem model_change_then_generate env u m script :
  trim (inputText u) <> "" ->
  let u' := handleModelChange m u in
  (exists tr pl input,
      trace (handleGenerate env u' script) = Fetch (submit_request env u') :: tr
      /\ url (submit_request env u') = endpoint (MODELS m)
      /\ body (submit_request env u') = Some pl
      /\ get_prop pl "input" = Some input
      /\ get_prop input "prompt" = Some (JStr (inputText u))
      /\ get_prop input "guidance_scale" = Some (JNum (defaultGuidance (MODELS m))))
  /\ enhancePrompt u' = enhancePrompt u
  /\ videoUrl u' = videoUrl u
  /\ error u' = error u.
Proof.
  intros Hp u'. subst u'. split; [|repeat split].
  destruct (trace_starts_with_submission env (handleModelChange m u) script Hp)
    as [tr Htr].
  exists tr. destruct m; eexists; eexists; (split; [exact Htr|]); repeat split.
Qed.

Lemma model_change_then_generate_witness :
  let u' := handleModelChange Wan25 (setGuidanceScale (mkNum 95 1) Scenarios.cat) in
  (exists tr pl input,
      trace (handleGenerate Scenarios.env_with_token u' []) =
        Fetch (submit_request Scenarios.env_with_token u') :: tr
      /\ url (submit_request Scenarios.env_with_token u') = endpoint (MODELS Wan25)
      /\ body (submit_request Scenarios.env_with_token u') = Some pl
      /\ get_prop pl "input" = Some input
      /\ get_prop input "prompt" =
           Some (JStr (inputText (setGuidanceScale (mkNum 95 1) Scenarios.cat)))
      /\ get_prop input "guidance_scale" = Some (JNum (defaultGuidance (MODELS Wan25))))
  /\ enhancePrompt u' = enhancePrompt (setGuidanceScale (mkNum 95 1) Scenarios.cat)
  /\ videoUrl u' = videoUrl (setGuidanceScale (mkNum 95 1) Scenarios.cat)
  /\ error u' = error (setGuidanceScale (mkNum 95 1) Scenarios.cat).
Proof.
  apply (model_change_then_generate Scenarios.env_with_token
           (setGuidanceScale (mkNum 95 1) Scenarios.cat) Wan25 []).
  discriminate.
Defined.

(** ** Downloading and rendering after a run *)

(** X10.  After a run with a prompt, [handleDownload] does nothing when the
    run failed or resolved to no media location, and when the run resolved
    to a non-empty string it appends, clicks and removes one anchor whose
    target is that string and whose file name is made of the key of the
    selected model. *)
Theorem download_after_run env u script :
  trim (inputText u) <> "" ->
  let r := handleGenerate env u script in
  (forall m, terminal r = Some (Failed m) -> handleDownload (ui r) = [])
  /\ (terminal r = Some (Succeeded JUndefined) -> handleDownload (ui r) = [])
  /\ (forall s,
        terminal r = Some (Succeeded (JStr s)) -> s <> "" ->
        let a := {| href := s;
                    download := "generated-" ++ model_key (selectedModelId u) ++ ".mp4" |} in
        handleDownload (ui r) = [AppendChild a; Click a; RemoveChild a]).
Proof.
  intros Hp r. subst r.
  destruct (handleGenerate_shape env u script Hp) as [t Hw _ _|url Hs Hu|m Hs Hu];
    unfold terminal.
  - rewrite Hw. repeat split; intros; discriminate.
  - rewrite Hs, Hu. simpl. split; [discriminate | split].
    + intros H. injection H as ->. reflexivity.
    + intros s H Hne. injection H as ->. unfold handleDownload. simpl.
      apply String.eqb_neq in Hne. now rewrite Hne.
  - rewrite Hs, Hu. simpl. rewrite catch_message_nonempty.
    split; [reflexivity | split; intros; discriminate].
Qed.

Lemma download_after_run_witness :
  let r := handleGenerate Scenarios.env_with_token Scenarios.cat
             (replies [Scenarios.starting; Scenarios.succeeded_with_video]) in
  let a := {| href := "https://cdn/x.mp4"; download := "generated-ltx-video.mp4" |} in
  handleDownload (ui r) = [AppendChild a; Click a; RemoveChild a].
Proof.
  assert (Hp : trim (inputText Scenarios.cat) <> "") by discriminate.
  destruct (download_after_run Scenarios.env_with_token Scenarios.cat
              (replies [Scenarios.starting; Scenarios.succeeded_with_video]) Hp)
    as (_ & _ & H).
  apply (H "https://cdn/x.mp4"); [reflexivity | discriminate].
Defined.

Lemma waiting_ui env u script :
  settled (handleGenerate env u script) = false ->
  exists t, t <> "" /\ ui (handleGenerate env u script) = setStatus t (started u).
Proof.
  intros Hw. destruct (blank_or_not (inputText u)) as [Hb|Hp].
  - unfold handleGenerate in Hw. rewrite (all_space_trim _ Hb) in Hw. discriminate Hw.
  - destruct (handleGenerate_shape env u script Hp) as [t _ Ht Hu|url Hs _|m Hs _];
      [now exists t | congruence..].
Qed.

(** X11.  While a call is waiting for a response the component renders the
    prompt field and the Generate button disabled, the button labelled
    Generating..., the status line and the waiting note, and neither an
    error line nor the player. *)
Theorem view_while_waiting env u script adv :
  settled (handleGenerate env u script) = false ->
  let v := render adv (ui (handleGenerate env u script)) in
  inputs_disabled v = true
  /\ generate_label v = "Generating..."
  /\ waiting_note v = true
  /\ player v = None
  /\ error_line v = None
  /\ exists t, status_line v = Some t.
Proof.
  intros Hw v. subst v. destruct (waiting_ui env u script Hw) as (t & Ht & ->).
  repeat split. exists t. unfold render, shown. simpl.
  apply String.eqb_neq in Ht. now rewrite Ht.
Qed.

Lemma view_while_waiting_witness :
  let v := render true (ui (handleGenerate Scenarios.env_with_token Scenarios.cat
                              (replies [Scenarios.starting]))) in
  inputs_disabled v = true
  /\ generate_label v = "Generating..."
  /\ waiting_note v = true
  /\ player v = None
  /\ error_line v = None
  /\ exists t, status_line v = Some t.
Proof.
  apply (view_while_waiting Scenarios.env_with_token Scenarios.cat
           (replies [Scenarios.starting]) true).
  reflexivity.
Defined.

(** X12.  When a call with a prompt has returned, the component renders the
    inputs enabled, no status line and no waiting note, and never an error
    line together with the player: after a failure the error is shown and
    the player of any earlier video is gone. *)
Theorem view_after_return env u script adv :
  trim (inputText u) <> "" ->
  settled (handleGenerate env u script) = true ->
  let v := render adv (ui (handleGenerate env u script)) in
  inputs_disabled v = false
  /\ generate_label v = "Generate Video"
  /\ waiting_note v = false
  /\ status_line v = None
  /\ (error_line v = None \/ (exists m, error_line v = Some m) /\ player v = None).
Proof.
  intros Hp Hs v. subst v.
  destruct (handleGenerate_shape env u script Hp) as [t Hw _ _|url _ ->|m _ ->];
    [congruence | |].
  - repeat split. now left.
  - repeat split. right. split; [|reflexivity].
    exists (catch_message m). unfold render, shown. simpl.
    now rewrite catch_message_nonempty.
Qed.

Lemma view_after_return_witness :
  let v := render false
             (ui (handleGenerate Scenarios.env_with_token
                    (setVideoUrl (JStr "https://cdn/old.mp4") Scenarios.cat)
                    [Rejected "Failed to fetch"])) in
  inputs_disabled v = false
  /\ generate_label v = "Generate Video"
  /\ waiting_note v = false
  /\ status_line v = None
  /\ (error_line v = None \/ (exists m, error_line v = Some m) /\ player v = None).
Proof.
  apply (view_after_return Scenarios.env_with_token
           (setVideoUrl (JStr "https://cdn/old.mp4") Scenarios.cat)
           [Rejected "Failed to fetch"] false);
    [discriminate | reflexivity].
Defined.

(** ** The proxy gateway: relay, failures, paths and credentials *)

Lemma targetUrl_app rest :
  rest <> "" ->
  Proxy.targetUrl (Proxy.prefix_path ++ rest) = "https://api.replicate.com/v1" ++ rest.
Proof.
  intros Hne. unfold Proxy.targetUrl, Proxy.targetPath.
  rewrite strip_app. apply String.eqb_neq in Hne. now rewrite Hne.
Qed.

(** X13.  The proxy calls upstream at most once for a request, and exactly
    once when a credential is configured: it never retries, whatever the
    upstream answers. *)
Theorem proxy_calls_upstream_once c upstream req :
  List.length (snd (Proxy.handler c upstream req)) =
    if Proxy.truthy_str (Proxy.apiToken c) then 1%nat else 0%nat.
Proof.
  unfold Proxy.handler. destruct (Proxy.apiToken c) as [t|]; [|reflexivity].
  simpl. destruct (t =? "")%string; [reflexivity|]. simpl.
  destruct (upstream (Proxy.upstream_request t req)) as [response|m];
    [destruct (payload response)|]; reflexivity.
Qed.

(** X14.  Every reply of the proxy is one of three: the configuration
    error, sent without any upstream call; the status and the JSON body of
    the upstream answer, unchanged, whatever the status is; or status 500
    with a JSON error that carries the message of the failure, when the
    fetch rejected or the upstream body was not JSON. *)
Theorem proxy_reply_cases c upstream req :
  Proxy.handler c upstream req = (Proxy.config_error, [])
  \/ (exists token response data,
        Proxy.apiToken c = Some token
        /\ upstream (Proxy.upstream_request token req) = Resolved response
        /\ payload response = Json data
        /\ Proxy.handler c upstream req =
             ({| Proxy.code := Net.status response; Proxy.sent := Proxy.SendJson data |},
              [Proxy.upstream_request token req]))
  \/ (exists token m,
        Proxy.apiToken c = Some token
        /\ (upstream (Proxy.upstream_request token req) = Rejected m
            \/ exists response,
                 upstream (Proxy.upstream_request token req) = Resolved response
                 /\ payload response = NotJson m)
        /\ Proxy.handler c upstream req =
             ({| Proxy.code := 500;
                 Proxy.sent :=
                   Proxy.SendJson (JObj [ ("error", JStr "Failed to proxy request");
                                          ("details", JStr m) ]) |},
              [Proxy.upstream_request token req])).
Proof.
  unfold Proxy.handler. destruct (Proxy.apiToken c) as [t|]; [|now left].
  destruct (t =? "")%string; [now left|].
  destruct (upstream (Proxy.upstream_request t req)) as [response|m] eqn:E.
  - destruct (payload response) as [data|m] eqn:P.
    + right. left. now exists t, response, data.
    + right. right. exists t, m. repeat split. right. now exists response.
  - right. right. exists t, m. repeat split. now left.
Qed.

(** X15.  A path that does not begin with /api/replicate is forwarded
    whole; only one leading occurrence of the prefix is removed; and the
    path put after the upstream base is never empty for a non-empty
    incoming path. *)
Theorem target_path_edges :
  (forall path,
      prefix Proxy.prefix_path path = false ->
      Proxy.targetUrl path = "https://api.replicate.com/v1" ++ path)
  /\ (forall rest,
        Proxy.targetUrl (Proxy.prefix_path ++ Proxy.prefix_path ++ rest) =
          "https://api.replicate.com/v1" ++ Proxy.prefix_path ++ rest)
  /\ (forall path, path <> "" -> Proxy.targetPath path <> "").
Proof.
  split; [|split].
  - intros path H. unfold Proxy.targetUrl, Proxy.targetPath, Proxy.strip. rewrite H.
    now destruct (path =? "")%string.
  - intros rest. apply targetUrl_app. discriminate.
  - intros path Hne. unfold Proxy.targetPath.
    destruct (Proxy.strip path =? "")%string eqn:E; [exact Hne|].
    now apply String.eqb_neq.
Qed.

Lemma target_path_edges_witness :
  Proxy.targetUrl "/v1/models" = "https://api.replicate.com/v1" ++ "/v1/models"
  /\ Proxy.targetPath "/api/replicate" <> "".
Proof.
  destruct target_path_edges as (Hwhole & _ & Hnonempty).
  split; [apply Hwhole; reflexivity | apply Hnonempty; discriminate].
Defined.

(** X16.  The token of the environment takes precedence: when it is set
    and not empty every upstream call carries it, whatever the functions
    configuration holds; when it is missing or empty the token of the
    functions configuration is used. *)
Theorem environment_token_precedence :
  (forall e k upstream req out,
      e <> "" ->
      In out (snd (Proxy.handler (Proxy.mkConfig (Some e) k) upstream req)) ->
      header "Authorization" (headers out) = Some ("Token " ++ e))
  /\ (forall o k upstream req out,
        Proxy.truthy_str o = false ->
        In out (snd (Proxy.handler (Proxy.mkConfig o (Some k)) upstream req)) ->
        header "Authorization" (headers out) = Some ("Token " ++ k)).
Proof.
  assert (Hcalls : forall c t upstream req out,
             Proxy.apiToken c = Some t ->
             In out (snd (Proxy.handler c upstream req)) ->
             header "Authorization" (headers out) = Some ("Token " ++ t)).
  { intros c t upstream req out Ht. unfold Proxy.handler. rewrite Ht.
    destruct (t =? "")%string; [intros []|].
    destruct (upstream (Proxy.upstream_request t req)) as [response|m];
      [destruct (payload response)|]; simpl; intros [<-|[]]; reflexivity. }
  split.
  - intros e k upstream req out Hne. apply Hcalls.
    unfold Proxy.apiToken. simpl. apply String.eqb_neq in Hne. now rewrite Hne.
  - intros o k upstream req out Ho. apply Hcalls.
    unfold Proxy.apiToken. simpl. now rewrite Ho.
Qed.

Lemma environment_token_precedence_witness :
  header "Authorization"
    (headers (Proxy.upstream_request "r8_env"
                (Proxy.mkIncoming "GET" "/api/replicate/predictions/abc" [] JUndefined))) =
    Some ("Token " ++ "r8_env")
  /\ header "Authorization"
       (headers (Proxy.upstream_request "r8_cfg"
                   (Proxy.mkIncoming "GET" "/api/replicate/predictions/abc" [] JUndefined))) =
       Some ("Token " ++ "r8_cfg").
Proof.
  destruct environment_token_precedence as [Henv Hcfg].
  split.
  - apply (Henv "r8_env" (Some "r8_cfg") (fun _ => Rejected "down")
             (Proxy.mkIncoming "GET" "/api/replicate/predictions/abc" [] JUndefined));
      [discriminate | simpl; left; reflexivity].
  - apply (Hcfg (Some "") "r8_cfg" (fun _ => Rejected "down")
             (Proxy.mkIncoming "GET" "/api/replicate/predictions/abc" [] JUndefined));
      [reflexivity | simpl; left; reflexivity].
Defined.

(** ** The client behind the proxy *)





(** ** Polling without a bound *)

Lemma poll_loop_keeps_waiting env ps : forall p u,
  forallb nonterminal (p :: ps) = true ->
  poll_loop env (JObj p) u (replies ps) =
    (setStatus (status (fold_left (fun u0 q => setStatus (line q) u0) ps u)) u,
     flat_map (poll_step env) (p :: ps),
     Awaiting).
Proof.
  induction ps as [|q ps IH]; intros p u Hall;
    simpl in Hall; apply andb_prop in Hall; destruct Hall as [Hp Hps].
  - simpl. unfold nonterminal in Hp. rewrite Hp. simpl.
    now rewrite <- setStatus_self.
  - change (replies (q :: ps)) with (reply 200 (JObj q) :: replies ps).
    rewrite poll_loop_turn by exact Hp.
    rewrite (IH q (setStatus (line q) u) Hps). reflexivity.
Qed.

Lemma fold_status_last ps : forall p u,
  status (fold_left (fun u0 q => setStatus (line q) u0) ps (setStatus (line p) u)) =
  line (List.last ps p).
Proof.
  induction ps as [|q ps IH]; intros p u; [reflexivity|].
  simpl fold_left. change (setStatus (line q) (setStatus (line p) u))
    with (setStatus (line q) u).
  rewrite IH. f_equal. clear.
  revert q. induction ps as [|x ps IHps]; intros q; [reflexivity|].
  change (List.last (q :: x :: ps) p) with (List.last (x :: ps) p).
  destruct ps as [|y ps]; [reflexivity|].
  change (List.last (x :: y :: ps) q) with (List.last (y :: ps) q).
  change (List.last (x :: y :: ps) p) with (List.last (y :: ps) p).
  exact (IHps q).
Qed.

(** X18.  The poll loop has no bound of its own: as long as every response
    is successful and carries a non-terminal status, each of them is
    followed by another wait and another poll, so after n such responses
    the call has issued n requests after the submission, is still waiting,
    and displays the status of the last response. *)
Theorem polling_has_no_bound env u p ps :
  trim (inputText u) <> "" ->
  forallb nonterminal (p :: ps) = true ->
  let r := handleGenerate env u (replies (p :: ps)) in
  settled r = false
  /\ requests (trace r) = submit_request env u :: map (poll_of env) (p :: ps)
  /\ status (ui r) = line (List.last ps p).
Proof.
  intros Hp Hall r. subst r. unfold handleGenerate.
  rewrite (has_prompt _ Hp). fold (started u).
  change (replies (p :: ps)) with (reply 200 (JObj p) :: replies ps).
  rewrite try_body_cons, receive_reply.
  rewrite (poll_loop_keeps_waiting env ps p _ Hall).
  cbn [ui trace settled requests]. split; [reflexivity | split].
  - now rewrite requests_poll_steps.
  - cbn [status setStatus]. apply fold_status_last.
Qed.

Lemma polling_has_no_bound_witness :
  let r := handleGenerate Scenarios.env_with_token Scenarios.cat
             (replies [Scenarios.starting; Scenarios.processing; Scenarios.processing]) in
  settled r = false
  /\ requests (trace r) =
       submit_request Scenarios.env_with_token Scenarios.cat
         :: map (poll_of Scenarios.env_with_token)
              [Scenarios.starting; Scenarios.processing; Scenarios.processing]
  /\ status (ui r) =
       line (List.last [Scenarios.processing; Scenarios.processing] Scenarios.starting).
Proof.
  apply (polling_has_no_bound Scenarios.env_with_token Scenarios.cat);
    [discriminate | reflexivity].
Defined.
